(** * serverless-secrets: the plugin of [src/index.js], embedded and verified

    The plugin synchronises a local secrets file with the SSM Parameter
    Store.  Its three operations ([deploySecrets], [removeDeployedSecrets],
    [pullDeployedSecrets]) are embedded below as functions of an explicit
    environment [Env] (configuration, file system, decoders and the AWS
    provider), in a small trace-and-exception monad: every call into a
    collaborator is recorded as an [Event], and a JavaScript [throw] or a
    rejected promise is the [Throw] outcome. *)

From Stdlib Require Import String Ascii List Bool Arith PeanoNat ZArith Lia.
From Stdlib Require Import Permutation.
From Stdlib Require Import Floats.SpecFloat.
From Stdlib Require Import DecimalString DecimalNat FinFun.
From Stdlib Require Import NArith Sorted.
Import ListNotations.
Local Open Scope string_scope.
Local Open Scope list_scope.
Set Warnings "-register-all".

(** ** JavaScript values *)

Module JS.

(** The values the plugin handles: what [yaml.load] and [JSON.parse] return
    for plain documents.  A number is an IEEE-754 double, kept in the
    canonical form of [spec_float] (one NaN, two zeros), so that [Object.is]
    on numbers is structural equality.  An object is the list of its own
    enumerable properties in property order; a JavaScript object never holds
    a key twice, which is the invariant [wf_value]. *)
Inductive value : Type :=
| VUndefined
| VNull
| VBool (b : bool)
| VNumber (n : spec_float)
| VString (s : string)
| VArray (items : list value)
| VObject (props : list (string * value)).

(** Induction over nested arrays and objects. *)
Section value_induction.
Variable P : value -> Prop.
Hypothesis Hundef : P VUndefined.
Hypothesis Hnull : P VNull.
Hypothesis Hbool : forall b, P (VBool b).
Hypothesis Hnum : forall n, P (VNumber n).
Hypothesis Hstr : forall s, P (VString s).
Hypothesis Harr : forall items, Forall P items -> P (VArray items).
Hypothesis Hobj :
  forall props, Forall (fun kv => P (snd kv)) props -> P (VObject props).

Fixpoint value_rect_nested (v : value) : P v :=
  match v with
  | VUndefined => Hundef
  | VNull => Hnull
  | VBool b => Hbool b
  | VNumber n => Hnum n
  | VString s => Hstr s
  | VArray items =>
      Harr items
        ((fix go (l : list value) : Forall P l :=
            match l with
            | [] => Forall_nil P
            | x :: r => Forall_cons x (value_rect_nested x) (go r)
            end) items)
  | VObject props =>
      Hobj props
        ((fix go (l : list (string * value))
            : Forall (fun kv => P (snd kv)) l :=
            match l with
            | [] => Forall_nil _
            | kv :: r =>
                Forall_cons kv (value_rect_nested (snd kv)) (go r)
            end) props)
  end.
End value_induction.

(** Property lookup, [obj[key]] on own properties. *)
Fixpoint lookup (key : string) (props : list (string * value)) : option value :=
  match props with
  | [] => None
  | (k, v) :: rest => if String.eqb key k then Some v else lookup key rest
  end.

Definition keys (props : list (string * value)) : list string := map fst props.

(** No object, at any depth, holds a key twice. *)
Inductive wf_value : value -> Prop :=
| wf_undefined : wf_value VUndefined
| wf_null : wf_value VNull
| wf_bool b : wf_value (VBool b)
| wf_number n : wf_value (VNumber n)
| wf_string s : wf_value (VString s)
| wf_array items : Forall wf_value items -> wf_value (VArray items)
| wf_object props :
    NoDup (keys props) ->
    Forall (fun kv => wf_value (snd kv)) props ->
    wf_value (VObject props).

(** lodash [isObject]: [value != null && (typeof value == 'object' ||
    typeof value == 'function')].  Arrays are objects. *)
Definition isObject (v : value) : bool :=
  match v with
  | VArray _ | VObject _ => true
  | _ => false
  end.

(** The number literal [z] as a double. *)
Definition double (z : Z) : spec_float := binary_normalize 53 1024 z 0 false.

(** [Object.is] on numbers. *)
Definition number_is (a b : spec_float) : bool :=
  match a, b with
  | S754_zero s, S754_zero s' => Bool.eqb s s'
  | S754_infinity s, S754_infinity s' => Bool.eqb s s'
  | S754_nan, S754_nan => true
  | S754_finite s m e, S754_finite s' m' e' =>
      Bool.eqb s s' && Pos.eqb m m' && Z.eqb e e'
  | _, _ => false
  end.

Section pairwise.
Context {A B : Type} (f : A -> B -> bool).
(** Same length and [f] at every index. *)
Fixpoint forall2b (la : list A) (lb : list B) : bool :=
  match la, lb with
  | [], [] => true
  | x :: xs, y :: ys => f x y && forall2b xs ys
  | _, _ => false
  end.
End pairwise.

(** [util.isDeepStrictEqual] of Node, on this fragment: primitives by
    [Object.is]; arrays by length and then index by index; objects by the
    number of own keys and then, for each key of the first, by the value
    under the same key of the second.  An array never equals an object. *)
Fixpoint isDeepStrictEqual (a b : value) : bool :=
  match a, b with
  | VUndefined, VUndefined => true
  | VNull, VNull => true
  | VBool x, VBool y => Bool.eqb x y
  | VNumber x, VNumber y => number_is x y
  | VString x, VString y => String.eqb x y
  | VArray la, VArray lb => forall2b isDeepStrictEqual la lb
  | VObject pa, VObject pb =>
      Nat.eqb (length pa) (length pb)
      && forallb (fun kv =>
                    match lookup (fst kv) pb with
                    | Some v' => isDeepStrictEqual (snd kv) v'
                    | None => false
                    end) pa
  | _, _ => false
  end.

(** The specification's deep structural equality, in its own words: scalars
    are equal when they have the same type and the same value; sequences when
    they agree position by position; mappings when they have the same keys
    and deep-equal values under each key, whatever the order of the keys. *)
Inductive deep_equal : value -> value -> Prop :=
| de_undefined : deep_equal VUndefined VUndefined
| de_null : deep_equal VNull VNull
| de_bool b : deep_equal (VBool b) (VBool b)
| de_number n : deep_equal (VNumber n) (VNumber n)
| de_string s : deep_equal (VString s) (VString s)
| de_sequence la lb :
    Forall2 deep_equal la lb -> deep_equal (VArray la) (VArray lb)
| de_mapping pa pb :
    (forall k, In k (keys pa) <-> In k (keys pb)) ->
    (forall k va vb, In (k, va) pa -> In (k, vb) pb -> deep_equal va vb) ->
    deep_equal (VObject pa) (VObject pb).

(** JavaScript truthiness of a string: only the empty string is falsy. *)
Definition truthy (s : string) : bool :=
  match s with
  | EmptyString => false
  | String _ _ => true
  end.

(** [a || b] where [a] is a string or [undefined]. *)
Definition or_else (a : option string) (b : string) : string :=
  match a with
  | Some s => if truthy s then s else b
  | None => b
  end.

(** [String(i)] for an array index. *)
Definition index_key (i : nat) : string :=
  NilEmpty.string_of_uint (Nat.to_uint i).

Fixpoint indexed {A : Type} (i : nat) (l : list A) : list (string * A) :=
  match l with
  | [] => []
  | x :: r => (index_key i, x) :: indexed (S i) r
  end.

Fixpoint chars (s : string) : list value :=
  match s with
  | EmptyString => []
  | String c r => VString (String c EmptyString) :: chars r
  end.

(** [Object.entries]: own enumerable properties as [key, value] pairs.  An
    array lists its indices, a string its characters, a number or boolean
    nothing; [null] and [undefined] are a TypeError ([None]). *)
Definition Object_entries (v : value) : option (list (string * value)) :=
  match v with
  | VUndefined | VNull => None
  | VBool _ | VNumber _ => Some []
  | VString s => Some (indexed 0 (chars s))
  | VArray items => Some (indexed 0 items)
  | VObject props => Some props
  end.

(** Assignment [obj[key] = v]: an existing key keeps its place. *)
Fixpoint assign (key : string) (v : value) (props : list (string * value))
  : list (string * value) :=
  match props with
  | [] => [(key, v)]
  | (k, w) :: rest =>
      if String.eqb key k then (k, v) :: rest else (k, w) :: assign key v rest
  end.

(** An array index, as the property order of JavaScript has it: the key is
    the canonical decimal text (no sign, no leading zero) of an integer below
    [2^32 - 1]. *)
Definition array_index (key : string) : option N :=
  match NilEmpty.uint_of_string key with
  | Some digits =>
      let n := N.of_uint digits in
      if String.eqb (NilEmpty.string_of_uint (N.to_uint n)) key
         && N.leb n 4294967294
      then Some n
      else None
  | None => None
  end.

Definition is_array_index (kv : string * value) : bool :=
  match array_index (fst kv) with
  | Some _ => true
  | None => false
  end.

Definition index_of (kv : string * value) : N :=
  match array_index (fst kv) with
  | Some n => n
  | None => 0%N
  end.

Fixpoint insert_by_index (kv : string * value) (sorted : list (string * value))
  : list (string * value) :=
  match sorted with
  | [] => [kv]
  | x :: rest =>
      if N.leb (index_of kv) (index_of x) then kv :: x :: rest
      else x :: insert_by_index kv rest
  end.

Definition sort_by_index (props : list (string * value))
  : list (string * value) :=
  fold_right insert_by_index [] props.

(** The order in which an object lists its own properties: the array indices
    first, in ascending numeric order, then the other keys in the order in
    which they were created. *)
Definition own_property_order (created : list (string * value))
  : list (string * value) :=
  sort_by_index (filter is_array_index created)
  ++ filter (fun kv => negb (is_array_index kv)) created.

(** [Object.fromEntries]: the entries assigned in order to a fresh object,
    whose properties are then listed in the property order of JavaScript. *)
Definition Object_fromEntries (entries : list (string * value)) : value :=
  VObject (own_property_order
             (fold_left (fun acc kv => assign (fst kv) (snd kv) acc) entries [])).

Fixpoint drop (n : nat) (s : string) : string :=
  match n, s with
  | O, _ => s
  | S n', String _ r => drop n' r
  | S _, EmptyString => EmptyString
  end.

(** [s.replace(pattern, "")] with a string pattern: the first occurrence of
    [pattern] is removed, and [s] is returned as it is when there is none. *)
Fixpoint replace_first_with_empty (s pattern : string) : string :=
  if String.prefix pattern s then drop (String.length pattern) s
  else match s with
       | EmptyString => EmptyString
       | String c r => String c (replace_first_with_empty r pattern)
       end.

End JS.

Import JS.

(** ** Effects: traces and exceptions *)

(** What can be thrown.  The plugin itself throws two strings; the rest comes
    from the runtime ([TypeError] on a property of [undefined]) and from the
    collaborators. *)
Inductive Error : Type :=
| ThrownString (msg : string)
| TypeError
| YAMLException (reason : string)
| SyntaxError (reason : string)
| FsError (code : string)
| ProviderError (code : string).

Inductive Result (A : Type) : Type :=
| Ok (a : A)
| Throw (e : Error).
Arguments Ok {A} a.
Arguments Throw {A} e.

(** [custom.secrets] of the service file. *)
Record Options : Type := mkOptions {
  file : option string;
  ssmPath : option string
}.

(** An entry of the store, the [Parameter] of the SSM responses. *)
Record SsmParameter : Type := mkSsmParameter {
  Name : string;
  Value : string
}.

Record Output : Type := mkOutput {
  OutputKey : string;
  OutputValue : string
}.

Record Stack : Type := mkStack {
  Outputs : option (list Output)
}.

(** The requests the plugin sends through [aws.request(service, action,
    params)], one constructor per action, with the fields of [params]. *)
Inductive Request : Type :=
| GetParameter (name : string) (WithDecryption : bool)
| PutParameter (name : string) (val : value) (type keyId : string)
    (Overwrite : bool)
| GetParametersByPath (Path : string) (Recursive : bool)
    (WithDecryption : option bool)
| DeleteParameters (Names : list string)
| DescribeStacks (StackName : string).

Inductive Response : Type :=
| GetParameterResult (parameter : option SsmParameter)
| PutParameterResult
| GetParametersByPathResult (Parameters : list SsmParameter)
| DeleteParametersResult
| DescribeStacksResult (Stacks : list Stack).

(** Everything outside the plugin: the configuration it is constructed with
    and the answers of its collaborators. *)
Record Env : Type := mkEnv {
  options : option Options;
  service : string;
  stage : string;
  stackName : string;
  SLS_DEBUG : option string;
  existsSync : string -> bool;
  readFileSync : string -> Result string;
  writeFileSync : string -> string -> Result unit;
  yaml_load : string -> Result value;
  yaml_dump : value -> Result string;
  JSON_parse : string -> Result value;
  JSON_stringify : value -> string;
  JSON_stringify_response : Response -> string;
  aws_request : Request -> Result Response
}.

(** Calls into the collaborators, as they are issued. *)
Inductive Event : Type :=
| EvLog (msg : string) (entity : option string)
| EvExistsSync (path : string)
| EvReadFileSync (path : string)
| EvWriteFileSync (path content : string)
| EvYamlLoad (content : string)
| EvRequest (req : Request)
| EvUnhandledRejection (e : Error).

(** A computation: the events it issued, in program order, and how it ended.
    For an [async] function the outcome is the state of the promise it
    returned, resolved ([Ok]) or rejected ([Throw]). *)
Definition M (A : Type) : Type := (list Event * Result A)%type.

Definition trace {A} (m : M A) : list Event := fst m.
Definition outcome {A} (m : M A) : Result A := snd m.

Definition ret {A} (a : A) : M A := ([], Ok a).
Definition throw {A} (e : Error) : M A := ([], Throw e).
Definition emit (ev : Event) : M unit := ([ev], Ok tt).
Definition lift {A} (r : Result A) : M A := ([], r).

(** Sequencing, and [await] of a callee: a throw skips the rest. *)
Definition bind {A B} (m : M A) (k : A -> M B) : M B :=
  match m with
  | (tr, Ok a) => let (tr', r) := k a in (tr ++ tr', r)
  | (tr, Throw e) => (tr, Throw e)
  end.

Declare Scope plugin_scope.
Delimit Scope plugin_scope with plugin.
Notation "x <- m ;; k" := (bind m (fun x => k))
  (at level 61, m at next level, right associativity) : plugin_scope.
Notation "m ;; k" := (bind m (fun _ => k))
  (at level 61, right associativity) : plugin_scope.
Local Open Scope plugin_scope.

(** [try { body } catch (e) { handler }]. *)
Definition try_catch {A} (body : M A) (handler : Error -> M A) : M A :=
  match body with
  | (tr, Ok a) => (tr, Ok a)
  | (tr, Throw e) => let (tr', r) := handler e in (tr ++ tr', r)
  end.

(** An [async] function of the plugin runs synchronously until it first waits
    for the provider: its events up to and including its first request come
    at the call, the rest when the answers arrive. *)
Fixpoint synchronous_part (tr : list Event) : list Event :=
  match tr with
  | [] => []
  | EvRequest req :: _ => [EvRequest req]
  | ev :: rest => ev :: synchronous_part rest
  end.

Fixpoint after_first_request (tr : list Event) : list Event :=
  match tr with
  | [] => []
  | EvRequest _ :: rest => rest
  | _ :: rest => after_first_request rest
  end.

(** A call to an [async] function whose promise is dropped, without [await]:
    the callee runs up to its first request and the caller goes on, whatever
    the outcome will be. *)
Definition not_awaited {A} (m : M A) : M unit :=
  (synchronous_part (trace m), Ok tt).

(** What a dropped promise still does once its caller has moved on: the rest
    of the callee's run and, if it ends rejected, an unhandled rejection. *)
Definition settles_later {A} (m : M A) : M unit :=
  (after_first_request (trace m)
   ++ match outcome m with
      | Ok _ => []
      | Throw e => [EvUnhandledRejection e]
      end,
   Ok tt).

Fixpoint first_rejection {A} (tasks : list (M A)) : option Error :=
  match tasks with
  | [] => None
  | (_, Throw e) :: _ => Some e
  | (_, Ok _) :: rest => first_rejection rest
  end.

(** [await Promise.all(tasks)] where the tasks are the promises of [async]
    callbacks called one after the other by [map]: every task is started
    first, each up to its first request, and all run to their end whatever
    happens to the others; the batch is rejected as soon as one task is.  The
    order in which the answers arrive is the provider's; the trace is that of
    the run in which they arrive task by task, so that the first rejection in
    time is the first in list order. *)
Definition Promise_all {A} (tasks : list (M A)) : M unit :=
  (concat (map (fun task => synchronous_part (trace task)) tasks)
   ++ concat (map (fun task => after_first_request (trace task)) tasks),
   match first_rejection tasks with
   | Some e => Throw e
   | None => Ok tt
   end).

(** Synchronous [array.map(f)] with a callback that may throw: the first
    throw ends the loop. *)
Fixpoint array_map {A B} (f : A -> M B) (l : list A) : M (list B) :=
  match l with
  | [] => ret []
  | x :: r => y <- f x ;; ys <- array_map f r ;; ret (y :: ys)
  end.

(** ** The plugin *)

Definition entity : string := "ServerlessSecrets".

(** [const DEBUG = process.env.SLS_DEBUG === '*'] *)
Definition DEBUG (env : Env) : bool :=
  match SLS_DEBUG env with
  | Some s => String.eqb s "*"
  | None => false
  end.

(** [this.serverless.cli.log(msg, entity)] *)
Definition cli_log (msg : string) : M unit := emit (EvLog msg (Some entity)).

(** [await this.aws.request(...)] *)
Definition request (env : Env) (req : Request) : M Response :=
  emit (EvRequest req) ;; lift (aws_request env req).

(** [if (DEBUG) this.serverless.cli.log(`... response: ${JSON.stringify(r)}`)] *)
Definition debug_log (env : Env) (what : string) (r : Response) : M unit :=
  if DEBUG env
  then cli_log (what ++ " response: " ++ JSON_stringify_response env r)
  else ret tt.

(** [yaml.load(content)] *)
Definition yaml_load_call (env : Env) (content : string) : M value :=
  emit (EvYamlLoad content) ;; lift (yaml_load env content).

(** The namespace prefix, the [const ssmPath] of [deploySecrets] and of
    [pullDeployedSecrets]:
    [this.options?.ssmPath || `/${service}-${stage}/secrets/`]. *)
Definition defaultSsmPath (env : Env) : string :=
  "/" ++ service env ++ "-" ++ stage env ++ "/secrets/".

Definition resolveSsmPath (env : Env) : string :=
  or_else (match options env with
           | Some o => ssmPath o
           | None => None
           end)
          (defaultSsmPath env).

Definition missing_file_message : string := "Please specify a secrets file".
Definition invalid_format_message : string :=
  "Secrets file must be valid yaml or json containing key-value pairs.".

(** [const filePath = this.options.file; if (!filePath) throw '...'] *)
Definition configured_file (env : Env) : M string :=
  match options env with
  | None => throw TypeError
  | Some o =>
      match file o with
      | Some filePath =>
          if truthy filePath then ret filePath
          else throw (ThrownString missing_file_message)
      | None => throw (ThrownString missing_file_message)
      end
  end.

Definition parseSecretsFile (env : Env) : M value :=
  filePath <- configured_file env ;;
  emit (EvExistsSync filePath) ;;
  if negb (existsSync env filePath) then
    cli_log "Secrets file not found, skipping..." ;;
    ret (VObject [])
  else
    emit (EvReadFileSync filePath) ;;
    content <- lift (readFileSync env filePath) ;;
    secrets <- yaml_load_call env content ;;
    if isObject secrets then ret secrets
    else throw (ThrownString invalid_format_message).

(** The [Value] of the put request:
    [isObject(secret) ? JSON.stringify(secret) : secret]. *)
Definition stored_value (env : Env) (secret : value) : value :=
  if isObject secret then VString (JSON_stringify env secret) else secret.

Definition pushSecret (env : Env) (name : string) (secret : value) : M unit :=
  let putParameterRequest :=
    PutParameter name (stored_value env secret)
      "SecureString" "alias/aws/ssm" true in
  putParameterResponse <- request env putParameterRequest ;;
  debug_log env "SSM PutParameter" putParameterResponse.

Definition secretChanged (env : Env) (name : string) (newSecret : value)
  : M bool :=
  try_catch
    (let getParameterRequest := GetParameter name true in
     getParameterResponse <- request env getParameterRequest ;;
     debug_log env "SSM GetParameter" getParameterResponse ;;
     parameterValue <-
       match getParameterResponse with
       | GetParameterResult (Some p) => ret (Value p)
       | _ => throw TypeError
       end ;;
     currentSecret <- yaml_load_call env parameterValue ;;
     ret (negb (isDeepStrictEqual newSecret currentSecret)))
    (fun _ => ret true).

(** The task of one entry in [deploySecrets]. *)
Definition deployEntry (env : Env) (ssmPath : string)
  (entry : string * value) : M unit :=
  let (name, secret) := entry in
  changed <- secretChanged env (ssmPath ++ name) secret ;;
  if changed then
    cli_log ("- " ++ name ++ " secret changed") ;;
    pushSecret env (ssmPath ++ name) secret ;;
    cli_log ("  " ++ name ++ " secret successfully upated")
  else
    cli_log ("- " ++ name ++ " secret unchanged").

Definition deploySecrets (env : Env) : M unit :=
  let ssmPath := resolveSsmPath env in
  secrets <- parseSecretsFile env ;;
  entries <- match Object_entries secrets with
             | Some entries => ret entries
             | None => throw TypeError
             end ;;
  Promise_all (map (deployEntry env ssmPath) entries).

(** [Stacks[0]?.Outputs?.find(o => o.OutputKey == "SsmBasePath")?.OutputValue] *)
Definition previousSSMPath_of (stacks : list Stack) : option string :=
  match stacks with
  | [] => None
  | stack :: _ =>
      match Outputs stack with
      | None => None
      | Some outputs =>
          match find (fun o => String.eqb (OutputKey o) "SsmBasePath") outputs with
          | Some o => Some (OutputValue o)
          | None => None
          end
      end
  end.

Definition getPreviousSSMPath (env : Env) : M (option string) :=
  let describeStackRequest := DescribeStacks (stackName env) in
  describeStackResponse <- request env describeStackRequest ;;
  previousSSMPath <-
    match describeStackResponse with
    | DescribeStacksResult stacks => ret (previousSSMPath_of stacks)
    | _ => throw TypeError
    end ;;
  debug_log env "CloudFormation DescribeStacks" describeStackResponse ;;
  ret previousSSMPath.

(** [names] is the array built by [removeDeployedSecrets], so that
    [Array.isArray(names) ? names : [names]] is [names]. *)
Definition removeSecrets (env : Env) (names : list string) : M unit :=
  let deleteParameterRequest := DeleteParameters names in
  deleteParameterResponse <- request env deleteParameterRequest ;;
  debug_log env "SSM DeleteParameter" deleteParameterResponse.

(** [this.removeSecrets(parameterNames)] is called without [await]: the
    deletion is requested, the removal is logged and the function returns;
    what the dropped promise does afterwards closes the trace. *)
Definition removeDeployedSecrets (env : Env) : M unit :=
  previous <- getPreviousSSMPath env ;;
  match previous with
  | None => ret tt
  | Some ssmPath =>
      if negb (truthy ssmPath) then ret tt
      else
        let listParametersRequest :=
          GetParametersByPath (ssmPath ++ "/secrets") true None in
        listParametersResponse <- request env listParametersRequest ;;
        parameterNames <-
          match listParametersResponse with
          | GetParametersByPathResult parameters => ret (map Name parameters)
          | _ => throw TypeError
          end ;;
        debug_log env "SSM GetParametersByPath" listParametersResponse ;;
        not_awaited (removeSecrets env parameterNames) ;;
        cli_log ("Secrets in " ++ ssmPath ++ " removed.") ;;
        settles_later (removeSecrets env parameterNames)
  end.

(** Returns [response.Parameters], which is [undefined] ([None]) when the
    response has no such field. *)
Definition pullSecrets (env : Env) (path : string)
  : M (option (list SsmParameter)) :=
  let getParametersByPathRequest := GetParametersByPath path true (Some true) in
  getParametersByPathResponse <- request env getParametersByPathRequest ;;
  debug_log env "SSM GetParametersByPath" getParametersByPathResponse ;;
  ret match getParametersByPathResponse with
      | GetParametersByPathResult parameters => Some parameters
      | _ => None
      end.

(** The callback of [rawSecrets.map] in [pullDeployedSecrets]. *)
Definition pullEntry (env : Env) (ssmPath : string) (secret : SsmParameter)
  : M (string * value) :=
  let name := replace_first_with_empty (Name secret) ssmPath in
  val <- lift (JSON_parse env (Value secret)) ;;
  ret (name, val).

Definition pullDeployedSecrets (env : Env) : M unit :=
  filePath <- configured_file env ;;
  let ssmPath := resolveSsmPath env in
  rawSecrets <- pullSecrets env ssmPath ;;
  secretEntries <-
    match rawSecrets with
    | Some parameters => array_map (pullEntry env ssmPath) parameters
    | None => throw TypeError
    end ;;
  let secrets := Object_fromEntries secretEntries in
  content <- lift (yaml_dump env secrets) ;;
  emit (EvWriteFileSync filePath content) ;;
  lift (writeFileSync env filePath content).

(** ** Observations on traces *)

Fixpoint requests (tr : list Event) : list Request :=
  match tr with
  | [] => []
  | EvRequest req :: rest => req :: requests rest
  | _ :: rest => requests rest
  end.

Definition is_write (ev : Event) : bool :=
  match ev with
  | EvWriteFileSync _ _ => true
  | _ => false
  end.

Definition is_yaml_load (ev : Event) : bool :=
  match ev with
  | EvYamlLoad _ => true
  | _ => false
  end.

(** The requests that change the store. *)
Definition is_store_write (req : Request) : bool :=
  match req with
  | PutParameter _ _ _ _ _ | DeleteParameters _ => true
  | _ => false
  end.

(** The path a request names, when it names one. *)
Definition request_path (req : Request) : option string :=
  match req with
  | GetParameter name _ => Some name
  | PutParameter name _ _ _ _ => Some name
  | GetParametersByPath path _ _ => Some path
  | _ => None
  end.

(** The requests of one entry of [deploySecrets]: its get and, when the
    secret changed, its put. *)
Definition entry_requests (env : Env) (ssmPath : string)
  (entry : string * value) : list Request :=
  GetParameter (ssmPath ++ fst entry) true
  :: match outcome (secretChanged env (ssmPath ++ fst entry) (snd entry)) with
     | Ok false => []
     | _ => [PutParameter (ssmPath ++ fst entry) (stored_value env (snd entry))
               "SecureString" "alias/aws/ssm" true]
     end.

(** The specification's path-join rule, in its own words:
    [namespacePrefix + "/" + name]. *)
Definition spec_path_join (namespacePrefix name : string) : string :=
  namespacePrefix ++ "/" ++ name.

(** ** Test doubles

    A small service, its secrets file and a store, used to run the plugin on
    concrete inputs.  The decoders are tables over the few texts involved. *)

Module Fixture.

Definition dq : string := String (ascii_of_nat 34) EmptyString.
Definition quoted (s : string) : string := dq ++ s ++ dq.

Definition api (ttl : Z) : value :=
  VObject [("key", VString "abc"); ("ttl", VNumber (double ttl))].

(** The JSON text [{"key":"abc","ttl":<ttl>}]. *)
Definition api_json (ttl : string) : string :=
  "{" ++ quoted "key" ++ ":" ++ quoted "abc" ++ ","
      ++ quoted "ttl" ++ ":" ++ ttl ++ "}".

Definition document : value :=
  VObject [("db", VString "pw1"); ("api", api 30)].

Definition document_text : string := "{db: pw1, api: {key: abc, ttl: 30}}".
Definition list_text : string := "[a, b]".

Fixpoint table {A : Type} (rows : list (string * A)) (otherwise : Result A)
  (key : string) : Result A :=
  match rows with
  | [] => otherwise
  | (k, a) :: rest => if String.eqb key k then Ok a else table rest otherwise key
  end.

Definition load : string -> Result value :=
  table [ (document_text, document);
          (list_text, VArray [VString "a"; VString "b"]);
          ("pw1", VString "pw1");
          ("42", VNumber (double 42));
          (api_json "30", api 30);
          (api_json "60", api 60) ]
        (Throw (YAMLException "bad indentation")).

Definition parse : string -> Result value :=
  table [ (quoted "pw1", VString "pw1");
          (api_json "30", api 30);
          (api_json "60", api 60) ]
        (Throw (SyntaxError "Unexpected token")).

Definition stringify (v : value) : string :=
  if isDeepStrictEqual v (api 30) then api_json "30"
  else if isDeepStrictEqual v (api 60) then api_json "60"
  else "{}".

(** The store: [db] holds the scalar as [deploySecrets] writes it, [api] an
    older version of the structured secret.  Deleting is refused. *)
Definition store (req : Request) : Result Response :=
  match req with
  | GetParameter name _ =>
      if String.eqb name "/svc-dev/secrets/db"
      then Ok (GetParameterResult (Some (mkSsmParameter name "pw1")))
      else if String.eqb name "/svc-dev/secrets/api"
      then Ok (GetParameterResult (Some (mkSsmParameter name (api_json "60"))))
      else Throw (ProviderError "ParameterNotFound")
  | PutParameter _ _ _ _ _ => Ok PutParameterResult
  | GetParametersByPath _ _ _ =>
      Ok (GetParametersByPathResult
            [ mkSsmParameter "/svc-dev/secrets/db" "pw1";
              mkSsmParameter "/svc-dev/secrets/api" (api_json "60") ])
  | DeleteParameters _ => Throw (ProviderError "AccessDeniedException")
  | DescribeStacks _ =>
      Ok (DescribeStacksResult
            [ mkStack (Some [ mkOutput "ServiceEndpoint" "https://example";
                              mkOutput "SsmBasePath" "/svc-dev" ]) ])
  end.

Definition dump (v : value) : Result string :=
  if isDeepStrictEqual v document then Ok document_text else Ok "{}".

(** A store whose values are all JSON texts. *)
Definition json_store (req : Request) : Result Response :=
  match req with
  | GetParametersByPath _ _ _ =>
      Ok (GetParametersByPathResult
            [ mkSsmParameter "/svc-dev/secrets/db" (quoted "pw1");
              mkSsmParameter "/svc-dev/secrets/api" (api_json "30") ])
  | _ => store req
  end.

Definition disk (path : string) : Result string :=
  if String.eqb path "secrets.yml" then Ok document_text
  else if String.eqb path "list.yml" then Ok list_text
  else Throw (FsError "ENOENT").

Definition on_disk (path : string) : bool :=
  String.eqb path "secrets.yml" || String.eqb path "list.yml".

(** The service [svc], stage [dev], with the given [custom.secrets]. *)
Definition env_with (o : option Options) (aws : Request -> Result Response)
  : Env :=
  {| options := o;
     service := "svc";
     stage := "dev";
     stackName := "svc-dev";
     SLS_DEBUG := None;
     existsSync := on_disk;
     readFileSync := disk;
     writeFileSync := fun _ _ => Ok tt;
     yaml_load := load;
     yaml_dump := dump;
     JSON_parse := parse;
     JSON_stringify := stringify;
     JSON_stringify_response := fun _ => "{}";
     aws_request := aws |}.

Definition env : Env := env_with (Some (mkOptions (Some "secrets.yml") None)) store.

(** No [file] in the configuration; an empty one; a file that is not there;
    a file whose root is a list. *)
Definition env_no_file : Env := env_with (Some (mkOptions None None)) store.
Definition env_empty_file : Env := env_with (Some (mkOptions (Some "") None)) store.
Definition env_absent_file : Env :=
  env_with (Some (mkOptions (Some "nowhere.yml") None)) store.
Definition env_list_file : Env :=
  env_with (Some (mkOptions (Some "list.yml") None)) store.

(** A store that refuses every write. *)
Definition read_only_store (req : Request) : Result Response :=
  match req with
  | PutParameter _ _ _ _ _ => Throw (ProviderError "AccessDeniedException")
  | _ => store req
  end.

Definition env_json : Env :=
  env_with (Some (mkOptions (Some "secrets.yml") None)) json_store.

Definition env_read_only : Env :=
  env_with (Some (mkOptions (Some "secrets.yml") None)) read_only_store.

End Fixture.

(** ** Further observations and test doubles *)

Definition is_log (ev : Event) : bool :=
  match ev with
  | EvLog _ _ => true
  | _ => false
  end.

(** A trace without its log lines. *)
Definition quiet (tr : list Event) : list Event :=
  filter (fun ev => negb (is_log ev)) tr.

(** What a run shows besides its log lines: the other events and the end. *)
Definition observable {A} (m : M A) : list Event * Result A :=
  (quiet (trace m), outcome m).

(** The same environment under another value of [SLS_DEBUG]. *)
Definition with_SLS_DEBUG (d : option string) (env : Env) : Env :=
  {| options := options env;
     service := service env;
     stage := stage env;
     stackName := stackName env;
     SLS_DEBUG := d;
     existsSync := existsSync env;
     readFileSync := readFileSync env;
     writeFileSync := writeFileSync env;
     yaml_load := yaml_load env;
     yaml_dump := yaml_dump env;
     JSON_parse := JSON_parse env;
     JSON_stringify := JSON_stringify env;
     JSON_stringify_response := JSON_stringify_response env;
     aws_request := aws_request env |}.

(** [typeof v == 'string'] *)
Definition is_string (v : value) : bool :=
  match v with
  | VString _ => true
  | _ => false
  end.

(** Whether [deploySecrets] takes an entry for changed. *)
Definition entry_changed (env : Env) (prefix : string)
  (entry : string * value) : bool :=
  match outcome (secretChanged env (prefix ++ fst entry) (snd entry)) with
  | Ok false => false
  | _ => true
  end.

Definition get_request (prefix : string) (entry : string * value) : Request :=
  GetParameter (prefix ++ fst entry) true.

Definition put_request (env : Env) (prefix : string)
  (entry : string * value) : Request :=
  PutParameter (prefix ++ fst entry) (stored_value env (snd entry))
    "SecureString" "alias/aws/ssm" true.

Definition is_get_or_put (req : Request) : bool :=
  match req with
  | GetParameter _ _ | PutParameter _ _ _ _ _ => true
  | _ => false
  end.

(** What each operation may do: deploy reads the file and gets and puts
    parameters; remove looks the stack up, lists and deletes; pull lists and
    writes the file.  Only remove may leave a rejection unhandled. *)
Definition deploy_event (ev : Event) : bool :=
  match ev with
  | EvWriteFileSync _ _ | EvUnhandledRejection _ => false
  | EvRequest req => is_get_or_put req
  | _ => true
  end.

Definition remove_event (ev : Event) : bool :=
  match ev with
  | EvLog _ _ | EvUnhandledRejection _ => true
  | EvRequest (DescribeStacks _) => true
  | EvRequest (GetParametersByPath _ _ None) => true
  | EvRequest (DeleteParameters _) => true
  | _ => false
  end.

Definition pull_event (ev : Event) : bool :=
  match ev with
  | EvLog _ _ | EvWriteFileSync _ _ => true
  | EvRequest (GetParametersByPath _ _ (Some true)) => true
  | _ => false
  end.

(** The entry that [pullDeployedSecrets] builds from a listed parameter and
    the value its text parsed to. *)
Definition pulled_entry (prefix : string) (secret : SsmParameter) (v : value)
  : string * value :=
  (replace_first_with_empty (Name secret) prefix, v).

(** The earlier revision of the plugin kept in [src/index.js] after the
    current one.  Its [parseSecretsFile], [pushSecret] and [secretChanged] are
    those above; it has no pull, its [removeDeployedSecrets] is an empty
    synchronous function, and its [deploySecrets] fetches
    [`${ssmPath}/${name}`] but puts [ssmPath + name]. *)
Module Previous.

Definition deployEntry (env : Env) (ssmPath : string)
  (entry : string * value) : M unit :=
  let (name, secret) := entry in
  changed <- secretChanged env (ssmPath ++ "/" ++ name) secret ;;
  if changed then
    cli_log ("- " ++ name ++ " secret changed") ;;
    pushSecret env (ssmPath ++ name) secret ;;
    cli_log ("  " ++ name ++ " secret successfully upated")
  else
    cli_log ("- " ++ name ++ " secret unchanged").

Definition deploySecrets (env : Env) : M unit :=
  let ssmPath := resolveSsmPath env in
  secrets <- parseSecretsFile env ;;
  entries <- match Object_entries secrets with
             | Some entries => ret entries
             | None => throw TypeError
             end ;;
  Promise_all (map (deployEntry env ssmPath) entries).

Definition removeDeployedSecrets (env : Env) : M unit := ret tt.

End Previous.

Module Scenario.

(** A store in step with the secrets file of [Fixture]. *)
Definition store_in_sync (req : Request) : Result Response :=
  match req with
  | GetParameter name _ =>
      if String.eqb name "/svc-dev/secrets/db"
      then Ok (GetParameterResult (Some (mkSsmParameter name "pw1")))
      else if String.eqb name "/svc-dev/secrets/api"
      then Ok (GetParameterResult
                 (Some (mkSsmParameter name (Fixture.api_json "30"))))
      else Throw (ProviderError "ParameterNotFound")
  | _ => Fixture.store req
  end.

Definition env_in_sync : Env :=
  Fixture.env_with (Some (mkOptions (Some "secrets.yml") None)) store_in_sync.

(** A store that answers nothing at all. *)
Definition store_down (req : Request) : Result Response :=
  Throw (ProviderError "ServiceUnavailable").

Definition env_down : Env :=
  Fixture.env_with (Some (mkOptions (Some "secrets.yml") None)) store_down.

(** A stack that recorded no prefix. *)
Definition store_without_output (req : Request) : Result Response :=
  match req with
  | DescribeStacks _ =>
      Ok (DescribeStacksResult
            [ mkStack (Some [ mkOutput "ServiceEndpoint" "https://example" ]) ])
  | _ => Fixture.store req
  end.

Definition env_without_output : Env :=
  Fixture.env_with (Some (mkOptions (Some "secrets.yml") None))
    store_without_output.

(** A store that lists but refuses the listing of parameters. *)
Definition store_no_listing (req : Request) : Result Response :=
  match req with
  | GetParametersByPath _ _ _ => Throw (ProviderError "AccessDeniedException")
  | _ => Fixture.store req
  end.

Definition env_no_listing : Env :=
  Fixture.env_with (Some (mkOptions (Some "secrets.yml") None)) store_no_listing.

(** A store that accepts deletions. *)
Definition store_deleting (req : Request) : Result Response :=
  match req with
  | DeleteParameters _ => Ok DeleteParametersResult
  | _ => Fixture.store req
  end.

Definition env_deleting : Env :=
  Fixture.env_with (Some (mkOptions (Some "secrets.yml") None)) store_deleting.

(** A secrets file that cannot be decoded. *)
Definition env_bad_yaml : Env :=
  {| options := Some (mkOptions (Some "secrets.yml") None);
     service := "svc";
     stage := "dev";
     stackName := "svc-dev";
     SLS_DEBUG := Some "*";
     existsSync := Fixture.on_disk;
     readFileSync := Fixture.disk;
     writeFileSync := fun _ _ => Ok tt;
     yaml_load := fun _ => Throw (YAMLException "bad indentation");
     yaml_dump := Fixture.dump;
     JSON_parse := Fixture.parse;
     JSON_stringify := Fixture.stringify;
     JSON_stringify_response := fun _ => "{}";
     aws_request := Fixture.store |}.

End Scenario.

(** * Verification *)

(** ** Deep equality *)

Section DeepEquality.

Lemma lookup_In (k : string) (props : list (string * value)) (v : value) :
  lookup k props = Some v -> In (k, v) props.
Proof.
  induction props as [|[k' w] rest IH]; simpl; [discriminate|].
  destruct (String.eqb k k') eqn:E.
  - apply String.eqb_eq in E. intros [= ->]. subst. now left.
  - intros H. right. now apply IH.
Qed.

Lemma lookup_None (k : string) (props : list (string * value)) :
  lookup k props = None <-> ~ In k (keys props).
Proof.
  induction props as [|[k' w] rest IH]; simpl.
  - tauto.
  - destruct (String.eqb k k') eqn:E.
    + apply String.eqb_eq in E. subst. split; [discriminate | tauto].
    + apply String.eqb_neq in E. rewrite IH. split.
      * intros H [H1 | H1]; [congruence | tauto].
      * tauto.
Qed.

Lemma In_keys (k : string) (v : value) (props : list (string * value)) :
  In (k, v) props -> In k (keys props).
Proof. intros H. apply (in_map fst) in H. exact H. Qed.

Lemma In_lookup (k : string) (v : value) (props : list (string * value)) :
  NoDup (keys props) -> In (k, v) props -> lookup k props = Some v.
Proof.
  induction props as [|[k' w] rest IH]; simpl; [tauto|].
  intros Hnd [H | H].
  - injection H as -> ->. now rewrite String.eqb_refl.
  - inversion Hnd as [|? ? Hnotin Hnd']; subst.
    destruct (String.eqb k k') eqn:E.
    + apply String.eqb_eq in E. subst. apply In_keys in H. contradiction.
    + now apply IH.
Qed.

Lemma number_is_eq (a b : spec_float) : number_is a b = true <-> a = b.
Proof.
  destruct a as [s|s| |s m e], b as [s'|s'| |s' m' e']; simpl;
    try (split; [discriminate | intros [=]]); try tauto.
  - rewrite Bool.eqb_true_iff. split; congruence.
  - rewrite Bool.eqb_true_iff. split; congruence.
  - rewrite !andb_true_iff, Bool.eqb_true_iff, Pos.eqb_eq, Z.eqb_eq.
    split; [intros [[-> ->] ->]; reflexivity | intros [= -> -> ->]; auto].
Qed.

Lemma forall2b_Forall2 {A B : Type} (f : A -> B -> bool) (la : list A) :
  forall lb, forall2b f la lb = true <-> Forall2 (fun x y => f x y = true) la lb.
Proof.
  induction la as [|x xs IH]; intros [|y ys]; simpl.
  - split; [constructor | reflexivity].
  - split; [discriminate | inversion 1].
  - split; [discriminate | inversion 1].
  - rewrite andb_true_iff, IH. split.
    + intros [H1 H2]. now constructor.
    + inversion 1; subst. auto.
Qed.

(** Same keys, none twice: same number of properties. *)
Lemma same_keys_same_length (pa pb : list (string * value)) :
  NoDup (keys pa) -> NoDup (keys pb) ->
  (forall k, In k (keys pa) <-> In k (keys pb)) ->
  length pa = length pb.
Proof.
  intros Ha Hb Hk.
  assert (length (keys pa) <= length (keys pb)) as H1
    by (apply NoDup_incl_length; [assumption | intros k; apply Hk]).
  assert (length (keys pb) <= length (keys pa)) as H2
    by (apply NoDup_incl_length; [assumption | intros k; apply Hk]).
  unfold keys in H1, H2. rewrite !length_map in H1, H2. lia.
Qed.

(** On well-formed values Node's algorithm decides the specification's deep
    equality. *)
Lemma isDeepStrictEqual_deep_equal (a : value) :
  forall b, wf_value a -> wf_value b ->
            (isDeepStrictEqual a b = true <-> deep_equal a b).
Proof.
  induction a as [ | | x | x | x | la IH | pa IH] using value_rect_nested;
    intros b Hwa Hwb.
  - destruct b; simpl; split; try discriminate; try (inversion 1; fail);
      constructor.
  - destruct b; simpl; split; try discriminate; try (inversion 1; fail);
      constructor.
  - destruct b as [ | | y | | | | ]; simpl;
      try (split; [discriminate | inversion 1]).
    rewrite Bool.eqb_true_iff. split; [intros ->; constructor | now inversion 1].
  - destruct b as [ | | | y | | | ]; simpl;
      try (split; [discriminate | inversion 1]).
    rewrite number_is_eq. split; [intros ->; constructor | now inversion 1].
  - destruct b as [ | | | | y | | ]; simpl;
      try (split; [discriminate | inversion 1]).
    rewrite String.eqb_eq. split; [intros ->; constructor | now inversion 1].
  - (* sequences *)
    destruct b as [ | | | | | lb | ]; simpl;
      try (split; [discriminate | inversion 1]).
    inversion Hwa as [ | | | | | ? Hla | ]; subst.
    inversion Hwb as [ | | | | | ? Hlb | ]; subst.
    rewrite forall2b_Forall2.
    assert (Forall2 (fun x y => isDeepStrictEqual x y = true) la lb
            <-> Forall2 deep_equal la lb) as Hiff.
    { clear Hwa Hwb. revert lb Hlb.
      induction la as [|x xs IHl]; intros lb Hlb.
      - split; inversion 1; constructor.
      - inversion IH as [|? ? IHx IHxs]; subst.
        inversion Hla as [|? ? Hx Hxs]; subst.
        split; inversion 1 as [|? y ? ys Hxy Hrest]; subst;
          inversion Hlb as [|? ? Hy Hys]; subst; constructor.
        + now apply IHx.
        + now apply IHl.
        + now apply IHx.
        + now apply IHl. }
    rewrite Hiff. split; [now constructor | now inversion 1].
  - (* mappings *)
    destruct b as [ | | | | | | pb]; simpl;
      try (split; [discriminate | inversion 1]).
    inversion Hwa as [ | | | | | | ? Hnda Hpa]; subst.
    inversion Hwb as [ | | | | | | ? Hndb Hpb]; subst.
    rewrite Forall_forall in IH, Hpa, Hpb.
    rewrite andb_true_iff, Nat.eqb_eq, forallb_forall. split.
    + intros [Hlen Hall].
      assert (incl (keys pa) (keys pb)) as Hincl.
      { intros k Hk. apply in_map_iff in Hk as [[k' v] [<- Hin]]. simpl.
        specialize (Hall _ Hin). simpl in Hall.
        destruct (lookup k' pb) eqn:E; [|discriminate].
        apply lookup_In in E. now apply In_keys in E. }
      constructor.
      * intros k. split; [apply Hincl|].
        apply (NoDup_length_incl Hnda); [|assumption].
        unfold keys. rewrite !length_map. lia.
      * intros k va vb Hina Hinb.
        specialize (Hall _ Hina). simpl in Hall.
        rewrite (In_lookup _ _ _ Hndb Hinb) in Hall.
        apply (IH _ Hina vb); [apply (Hpa _ Hina) | apply (Hpb _ Hinb) |].
        exact Hall.
    + inversion 1 as [ | | | | | | ? ? Hkeys Hvals]; subst. split.
      * now apply same_keys_same_length.
      * intros [k va] Hina. simpl.
        assert (In k (keys pb)) as Hk by (apply Hkeys; now apply In_keys in Hina).
        destruct (lookup k pb) as [vb|] eqn:E.
        -- pose proof (lookup_In _ _ _ E) as Hinb.
           apply (IH _ Hina vb); [apply (Hpa _ Hina) | apply (Hpb _ Hinb) |].
           now apply (Hvals k).
        -- apply lookup_None in E. contradiction.
Qed.

End DeepEquality.

Section DeepEqualityShape.

Lemma In_same_key (k : string) (va vb : value) (props : list (string * value)) :
  NoDup (keys props) -> In (k, va) props -> In (k, vb) props -> va = vb.
Proof.
  intros Hnd Ha Hb.
  pose proof (In_lookup _ _ _ Hnd Ha) as Ea.
  pose proof (In_lookup _ _ _ Hnd Hb) as Eb.
  congruence.
Qed.

Lemma deep_equal_refl (v : value) : wf_value v -> deep_equal v v.
Proof.
  induction v as [ | | x | x | x | l IH | props IH] using value_rect_nested;
    intros Hw; try constructor.
  - inversion Hw as [ | | | | | ? Hl | ]; subst. clear Hw.
    induction l as [|x xs IHl]; [constructor|].
    inversion IH; inversion Hl; subst. constructor; auto.
  - tauto.
  - inversion Hw as [ | | | | | | ? Hnd Hp]; subst.
    rewrite Forall_forall in IH, Hp.
    intros k va vb Ha Hb.
    rewrite (In_same_key _ _ _ _ Hnd Ha Hb).
    apply (IH _ Hb). apply (Hp _ Hb).
Qed.

(** Mapping keys: any reordering of the properties is deep-equal. *)
Lemma deep_equal_key_order (pa pb : list (string * value)) :
  wf_value (VObject pa) -> Permutation pa pb ->
  deep_equal (VObject pa) (VObject pb).
Proof.
  intros Hw Hperm.
  inversion Hw as [ | | | | | | ? Hnd Hp]; subst.
  rewrite Forall_forall in Hp.
  constructor.
  - intros k. unfold keys. split; apply Permutation_in.
    + now apply Permutation_map.
    + apply Permutation_map. now apply Permutation_sym.
  - intros k va vb Ha Hb.
    apply (Permutation_in _ (Permutation_sym Hperm)) in Hb.
    rewrite (In_same_key _ _ _ _ Hnd Ha Hb).
    apply deep_equal_refl. apply (Hp _ Hb).
Qed.

(** Sequences: two different items in the other order are not deep-equal. *)
Lemma deep_equal_sequence_order (x y : value) :
  ~ deep_equal x y -> ~ deep_equal (VArray [x; y]) (VArray [y; x]).
Proof.
  intros Hxy H. inversion H as [ | | | | | ? ? HF | ]; subst.
  inversion HF; subst. contradiction.
Qed.

(** Scalars: a number is never deep-equal to a string. *)
Lemma deep_equal_scalar_type (n : spec_float) (s : string) :
  ~ deep_equal (VNumber n) (VString s).
Proof. inversion 1. Qed.

End DeepEqualityShape.

(** ** The monad *)

Section Monad.

Lemma outcome_bind {A B} (m : M A) (k : A -> M B) :
  outcome (bind m k) =
  match outcome m with
  | Ok a => outcome (k a)
  | Throw e => Throw e
  end.
Proof.
  destruct m as [tr [a|e]]; simpl; [|reflexivity].
  destruct (k a); reflexivity.
Qed.

Lemma trace_bind {A B} (m : M A) (k : A -> M B) :
  trace (bind m k) =
  trace m ++ match outcome m with
             | Ok a => trace (k a)
             | Throw _ => []
             end.
Proof.
  destruct m as [tr [a|e]]; simpl.
  - destruct (k a); reflexivity.
  - now rewrite app_nil_r.
Qed.

Lemma requests_app (tr tr' : list Event) :
  requests (tr ++ tr') = requests tr ++ requests tr'.
Proof.
  induction tr as [|ev tr IH]; simpl; [reflexivity|].
  destruct ev; simpl; now rewrite IH.
Qed.

Lemma requests_concat (trs : list (list Event)) :
  requests (concat trs) = concat (map requests trs).
Proof.
  induction trs as [|tr trs IH]; simpl; [reflexivity|].
  now rewrite requests_app, IH.
Qed.

Lemma synchronous_part_split (tr : list Event) :
  synchronous_part tr ++ after_first_request tr = tr.
Proof.
  induction tr as [|ev tr IH]; [reflexivity|].
  destruct ev; simpl; try (now rewrite IH); reflexivity.
Qed.

Lemma requests_synchronous_part (tr : list Event) :
  requests (synchronous_part tr) = firstn 1 (requests tr).
Proof.
  induction tr as [|ev tr IH]; [reflexivity|]. destruct ev; simpl; auto.
Qed.

Lemma requests_after_first_request (tr : list Event) :
  requests (after_first_request tr) = tl (requests tr).
Proof.
  induction tr as [|ev tr IH]; [reflexivity|]. destruct ev; simpl; auto.
Qed.

(** The requests of a batch: the first request of every task, then what each
    task asks afterwards. *)
Lemma requests_Promise_all {A B} (f : B -> M A) (l : list B) :
  requests (trace (Promise_all (map f l)))
  = flat_map (fun x => firstn 1 (requests (trace (f x)))) l
    ++ flat_map (fun x => tl (requests (trace (f x)))) l.
Proof.
  unfold Promise_all, trace at 1. cbn [fst].
  rewrite requests_app, !requests_concat, !map_map, !flat_map_concat_map.
  f_equal; f_equal; apply map_ext; intros x.
  - apply requests_synchronous_part.
  - apply requests_after_first_request.
Qed.

Lemma requests_bind {A B} (m : M A) (k : A -> M B) :
  requests (trace (bind m k)) =
  requests (trace m) ++ match outcome m with
                        | Ok a => requests (trace (k a))
                        | Throw _ => []
                        end.
Proof.
  rewrite trace_bind, requests_app. now destruct (outcome m).
Qed.

Lemma requests_cli_log (msg : string) : requests (trace (cli_log msg)) = [].
Proof. reflexivity. Qed.

Lemma outcome_cli_log (msg : string) : outcome (cli_log msg) = Ok tt.
Proof. reflexivity. Qed.

Lemma outcome_debug_log (env : Env) (what : string) (r : Response) :
  outcome (debug_log env what r) = Ok tt.
Proof. unfold debug_log. destruct (DEBUG env); reflexivity. Qed.

Lemma requests_debug_log (env : Env) (what : string) (r : Response) :
  requests (trace (debug_log env what r)) = [].
Proof. unfold debug_log. destruct (DEBUG env); reflexivity. Qed.

Lemma first_rejection_In {A} (tasks : list (M A)) (e : Error) :
  first_rejection tasks = Some e ->
  exists task, In task tasks /\ outcome task = Throw e.
Proof.
  induction tasks as [|[tr [a|e']] rest IH]; simpl; [discriminate| |].
  - intros H. destruct (IH H) as [t [Hin Ht]]. eauto.
  - intros [= ->]. eexists. split; [left; reflexivity | reflexivity].
Qed.

Lemma first_rejection_None {A} (tasks : list (M A)) :
  first_rejection tasks = None <->
  forall task, In task tasks -> exists a, outcome task = Ok a.
Proof.
  induction tasks as [|[tr [a|e']] rest IH]; simpl.
  - split; [intros _ ? [] | reflexivity].
  - rewrite IH. split.
    + intros H t [<- | Hin]; [now exists a | auto].
    + intros H t Hin. apply H. now right.
  - split; [discriminate|].
    intros H. destruct (H _ (or_introl eq_refl)) as [a Ha]. discriminate.
Qed.

(** A batch is rejected exactly when one of its tasks is. *)
Lemma Promise_all_rejected {A} (tasks : list (M A)) :
  (exists e, outcome (Promise_all tasks) = Throw e) <->
  (exists task e, In task tasks /\ outcome task = Throw e).
Proof.
  unfold Promise_all, outcome at 1. simpl. split.
  - intros [e H]. destruct (first_rejection tasks) as [e'|] eqn:E; [|discriminate].
    destruct (first_rejection_In _ _ E) as [t [Hin Ht]]. eauto.
  - intros [t [e [Hin Ht]]].
    destruct (first_rejection tasks) as [e'|] eqn:E; [eauto|].
    rewrite first_rejection_None in E. destruct (E _ Hin) as [a Ha]. congruence.
Qed.

End Monad.

(** ** The diff: [secretChanged] *)

Ltac run_plugin :=
  unfold try_catch, request, yaml_load_call, debug_log, cli_log, bind, emit,
    lift, ret, throw, outcome, trace; simpl.

(** What [secretChanged] answers, case by case; it never throws. *)
Lemma secretChanged_outcome (env : Env) (name : string) (newSecret : value) :
  outcome (secretChanged env name newSecret) =
  Ok match aws_request env (GetParameter name true) with
     | Ok (GetParameterResult (Some p)) =>
         match yaml_load env (Value p) with
         | Ok currentSecret => negb (isDeepStrictEqual newSecret currentSecret)
         | Throw _ => true
         end
     | _ => true
     end.
Proof.
  unfold secretChanged. run_plugin.
  destruct (aws_request env (GetParameter name true)) as [[[p|]| | | |]|e];
    destruct (DEBUG env); simpl; try reflexivity;
    destruct (yaml_load env (Value p)); reflexivity.
Qed.

Lemma secretChanged_total (env : Env) (name : string) (newSecret : value) :
  exists changed, outcome (secretChanged env name newSecret) = Ok changed.
Proof. rewrite secretChanged_outcome. eauto. Qed.

(** [secretChanged] sends one request, the get of [name] with decryption. *)
Lemma secretChanged_requests (env : Env) (name : string) (newSecret : value) :
  requests (trace (secretChanged env name newSecret)) = [GetParameter name true].
Proof.
  unfold secretChanged. run_plugin.
  destruct (aws_request env (GetParameter name true)) as [[[p|]| | | |]|e];
    destruct (DEBUG env); simpl; try reflexivity;
    destruct (yaml_load env (Value p)); reflexivity.
Qed.

(** C1. When the fetch succeeds, [secretChanged] returns false if and only
    if the remote value decodes (with [yaml.load]) to a value that is
    deep-structurally equal to the local one, and returns true otherwise.
    That equality ignores the order of mapping keys, follows the order of
    sequences, and tells a number from a string: the number 1 is not equal
    to the string "1". *)
Theorem secretChanged_false_iff_deep_equal
  (env : Env) (name : string) (newSecret : value) (p : SsmParameter) :
  wf_value newSecret ->
  (forall v, yaml_load env (Value p) = Ok v -> wf_value v) ->
  aws_request env (GetParameter name true) = Ok (GetParameterResult (Some p)) ->
  let equal_to_remote :=
    exists currentSecret,
      yaml_load env (Value p) = Ok currentSecret
      /\ deep_equal newSecret currentSecret in
  (outcome (secretChanged env name newSecret) = Ok false <-> equal_to_remote)
  /\ (outcome (secretChanged env name newSecret) = Ok true <-> ~ equal_to_remote)
  /\ (forall pa pb, wf_value (VObject pa) -> Permutation pa pb ->
                    deep_equal (VObject pa) (VObject pb))
  /\ (forall x y, ~ deep_equal x y -> ~ deep_equal (VArray [x; y]) (VArray [y; x]))
  /\ ~ deep_equal (VNumber (double 1)) (VString "1").
Proof.
  intros Hlocal Hremote Hfetch equal_to_remote.
  assert (outcome (secretChanged env name newSecret) = Ok false
          <-> equal_to_remote) as Hiff.
  { rewrite secretChanged_outcome, Hfetch. unfold equal_to_remote.
    destruct (yaml_load env (Value p)) as [v|e] eqn:Hload.
    - pose proof (isDeepStrictEqual_deep_equal newSecret v Hlocal
                    (Hremote v eq_refl)) as Hdec.
      destruct (isDeepStrictEqual newSecret v); simpl; split.
      + intros _. exists v. split; [reflexivity | now apply Hdec].
      + reflexivity.
      + discriminate.
      + intros [v' [[= <-] Hde]]. apply Hdec in Hde. discriminate.
    - split; [discriminate | intros [v' [[=] _]]]. }
  split; [exact Hiff|]. split.
  - rewrite <- Hiff, secretChanged_outcome. 
    match goal with |- Ok ?b = _ <-> _ => destruct b end;
      split; congruence.
  - split; [exact deep_equal_key_order|].
    split; [exact deep_equal_sequence_order | apply deep_equal_scalar_type].
Qed.

(** C2. When the fetch fails, for whatever reason, [secretChanged] returns
    true whatever the local value; and it returns false only when the fetch
    succeeded, the value decoded, and the decoded value is deep-structurally
    equal to the local one (values being JavaScript values, whose objects
    hold no key twice). *)
Theorem secretChanged_fetch_failure_is_change
  (env : Env) (name : string) (newSecret : value) :
  (forall e, aws_request env (GetParameter name true) = Throw e ->
             outcome (secretChanged env name newSecret) = Ok true)
  /\ (wf_value newSecret ->
      (forall p currentSecret,
          aws_request env (GetParameter name true)
            = Ok (GetParameterResult (Some p)) ->
          yaml_load env (Value p) = Ok currentSecret ->
          wf_value currentSecret) ->
      outcome (secretChanged env name newSecret) = Ok false ->
      exists p currentSecret,
        aws_request env (GetParameter name true) = Ok (GetParameterResult (Some p))
        /\ yaml_load env (Value p) = Ok currentSecret
        /\ deep_equal newSecret currentSecret).
Proof.
  rewrite secretChanged_outcome. split.
  - intros e ->. reflexivity.
  - intros Hlocal Hremote.
    destruct (aws_request env (GetParameter name true)) as [[[p|]| | | |]|e];
      try discriminate.
    destruct (yaml_load env (Value p)) as [v|e] eqn:Hload; [|discriminate].
    destruct (isDeepStrictEqual newSecret v) eqn:Heq; [|discriminate].
    intros _. exists p, v. split; [reflexivity|]. split; [exact Hload|].
    apply isDeepStrictEqual_deep_equal; [exact Hlocal | | exact Heq].
    apply (Hremote p v eq_refl Hload).
Qed.

(** ** The namespace prefix *)

(** C3. The namespace prefix is the configured override, as it is, when
    there is one and it is not empty, and otherwise exactly
    "/" + service + "-" + stage + "/secrets/". *)
Theorem resolveSsmPath_override_or_default (env : Env) :
  (forall o override,
      options env = Some o -> ssmPath o = Some override -> override <> "" ->
      resolveSsmPath env = override)
  /\ ((forall o, options env = Some o ->
                 ssmPath o = None \/ ssmPath o = Some "") ->
      resolveSsmPath env
      = ("/" ++ service env ++ "-" ++ stage env ++ "/secrets/")%string).
Proof.
  unfold resolveSsmPath, defaultSsmPath. split.
  - intros o override -> -> Hne. destruct override; [congruence | reflexivity].
  - intros H. destruct (options env) as [o|]; [|reflexivity].
    destruct (H o eq_refl) as [-> | ->]; reflexivity.
Qed.

(** ** The secrets file: [parseSecretsFile] *)

Lemma configured_file_trace (env : Env) : trace (configured_file env) = [].
Proof.
  unfold configured_file.
  destruct (options env) as [o|]; [|reflexivity].
  destruct (file o) as [f|]; [|reflexivity].
  destruct (truthy f); reflexivity.
Qed.

Lemma configured_file_set (env : Env) (o : Options) (filePath : string) :
  options env = Some o -> file o = Some filePath -> filePath <> "" ->
  configured_file env = ([], Ok filePath).
Proof.
  intros Ho Hf Hne. unfold configured_file. rewrite Ho, Hf.
  destruct filePath; [congruence | reflexivity].
Qed.

Lemma configured_file_missing (env : Env) (o : Options) :
  options env = Some o -> file o = None \/ file o = Some "" ->
  configured_file env = ([], Throw (ThrownString missing_file_message)).
Proof.
  intros Ho [Hf | Hf]; unfold configured_file; now rewrite Ho, Hf.
Qed.

(** Reading the secrets file sends nothing to the store. *)
Lemma parseSecretsFile_requests (env : Env) :
  requests (trace (parseSecretsFile env)) = [].
Proof.
  unfold parseSecretsFile.
  destruct (configured_file env) as [tr [f|e]] eqn:Hc;
    pose proof (configured_file_trace env) as Htr; rewrite Hc in Htr;
    simpl in Htr; subst tr; [|reflexivity].
  run_plugin.
  destruct (existsSync env f); simpl; [|reflexivity].
  destruct (readFileSync env f) as [content|e]; simpl; [|reflexivity].
  destruct (yaml_load env content) as [secrets|e]; simpl; [|reflexivity].
  destruct (isObject secrets); reflexivity.
Qed.

(** What [parseSecretsFile] returns can be listed by [Object.entries]. *)
Lemma parseSecretsFile_isObject (env : Env) (secrets : value) :
  outcome (parseSecretsFile env) = Ok secrets -> isObject secrets = true.
Proof.
  unfold parseSecretsFile.
  destruct (configured_file env) as [tr [f|e]]; [|discriminate].
  run_plugin.
  destruct (existsSync env f); simpl.
  - destruct (readFileSync env f) as [content|e]; simpl; [|discriminate].
    destruct (yaml_load env content) as [v|e]; simpl; [|discriminate].
    destruct (isObject v) eqn:E; simpl; [|discriminate].
    now intros [= <-].
  - now intros [= <-].
Qed.

(** The part of C4 that holds: a root that is a scalar, [null] or nothing at
    all is refused, and nothing has been sent to the store. *)
Lemma parseSecretsFile_rejects_scalar_root
  (env : Env) (o : Options) (filePath content : string) (root : value) :
  options env = Some o -> file o = Some filePath -> filePath <> "" ->
  existsSync env filePath = true ->
  readFileSync env filePath = Ok content ->
  yaml_load env content = Ok root ->
  isObject root = false ->
  outcome (parseSecretsFile env) = Throw (ThrownString invalid_format_message)
  /\ deploySecrets env =
       ([EvExistsSync filePath; EvReadFileSync filePath; EvYamlLoad content],
        Throw (ThrownString invalid_format_message)).
Proof.
  intros Ho Hf Hne Hex Hrd Hload Hobj.
  unfold deploySecrets, parseSecretsFile.
  rewrite (configured_file_set env o filePath Ho Hf Hne).
  run_plugin. rewrite Hex. simpl. rewrite Hrd. simpl. rewrite Hload. simpl.
  rewrite Hobj. simpl. split; reflexivity.
Qed.

(** C4, where the code departs from it: a root that is a list passes the
    [isObject] test, so [parseSecretsFile] returns the list instead of
    throwing the invalid-format error. *)
Theorem parseSecretsFile_accepts_list_root
  (env : Env) (o : Options) (filePath content : string) (items : list value) :
  options env = Some o -> file o = Some filePath -> filePath <> "" ->
  existsSync env filePath = true ->
  readFileSync env filePath = Ok content ->
  yaml_load env content = Ok (VArray items) ->
  outcome (parseSecretsFile env) = Ok (VArray items)
  /\ outcome (parseSecretsFile env) <> Throw (ThrownString invalid_format_message).
Proof.
  intros Ho Hf Hne Hex Hrd Hload.
  unfold parseSecretsFile.
  rewrite (configured_file_set env o filePath Ho Hf Hne).
  run_plugin. rewrite Hex. simpl. rewrite Hrd. simpl. rewrite Hload. simpl.
  split; [reflexivity | discriminate].
Qed.

(** ** Deploy *)

Lemma pushSecret_requests (env : Env) (name : string) (secret : value) :
  requests (trace (pushSecret env name secret))
  = [PutParameter name (stored_value env secret) "SecureString" "alias/aws/ssm" true].
Proof.
  unfold pushSecret. run_plugin.
  destruct (aws_request env _); simpl; [|reflexivity].
  destruct (DEBUG env); reflexivity.
Qed.

Lemma pushSecret_outcome (env : Env) (name : string) (secret : value) :
  outcome (pushSecret env name secret)
  = match aws_request env (PutParameter name (stored_value env secret)
                             "SecureString" "alias/aws/ssm" true) with
    | Ok _ => Ok tt
    | Throw e => Throw e
    end.
Proof.
  unfold pushSecret. run_plugin.
  destruct (aws_request env _); simpl; [|reflexivity].
  destruct (DEBUG env); reflexivity.
Qed.

Lemma deployEntry_requests (env : Env) (prefix : string) (entry : string * value) :
  requests (trace (deployEntry env prefix entry)) = entry_requests env prefix entry.
Proof.
  destruct entry as [name secret]. unfold deployEntry, entry_requests.
  cbv beta iota. simpl fst. simpl snd.
  rewrite requests_bind, secretChanged_requests.
  destruct (secretChanged_total env (prefix ++ name) secret) as [[|] ->];
    cbv beta iota; try reflexivity.
  rewrite requests_bind, requests_cli_log, outcome_cli_log.
  rewrite requests_bind, pushSecret_requests.
  destruct (outcome (pushSecret env (prefix ++ name) secret)); reflexivity.
Qed.

Lemma deployEntry_outcome (env : Env) (prefix name : string) (secret : value) :
  outcome (deployEntry env prefix (name, secret))
  = match outcome (secretChanged env (prefix ++ name) secret) with
    | Ok true => outcome (pushSecret env (prefix ++ name) secret)
    | Ok false => Ok tt
    | Throw e => Throw e
    end.
Proof.
  unfold deployEntry. rewrite outcome_bind.
  destruct (outcome (secretChanged env (prefix ++ name) secret)) as [[|]|e];
    try reflexivity.
  rewrite outcome_bind. simpl. rewrite outcome_bind.
  destruct (outcome (pushSecret env (prefix ++ name) secret)) as [[]|e'];
    reflexivity.
Qed.

Lemma entry_changed_outcome (env : Env) (prefix : string)
  (entry : string * value) :
  outcome (secretChanged env (prefix ++ fst entry) (snd entry))
  = Ok (entry_changed env prefix entry).
Proof.
  unfold entry_changed.
  destruct (secretChanged_total env (prefix ++ fst entry) (snd entry))
    as [[|] ->]; reflexivity.
Qed.

Lemma entry_requests_changed (env : Env) (prefix : string)
  (entry : string * value) :
  entry_requests env prefix entry
  = get_request prefix entry
    :: if entry_changed env prefix entry then [put_request env prefix entry]
       else [].
Proof.
  unfold entry_requests, get_request, put_request.
  rewrite entry_changed_outcome. now destruct (entry_changed env prefix entry).
Qed.

(** The requests of a deploy: the get of every entry of the secrets file, in
    file order, then the put of each entry that changed; none when the file
    could not be used. *)
Lemma deploySecrets_requests (env : Env) :
  requests (trace (deploySecrets env))
  = match outcome (parseSecretsFile env) with
    | Ok secrets =>
        match Object_entries secrets with
        | Some entries =>
            map (get_request (resolveSsmPath env)) entries
            ++ map (put_request env (resolveSsmPath env))
                   (filter (entry_changed env (resolveSsmPath env)) entries)
        | None => []
        end
    | Throw _ => []
    end.
Proof.
  unfold deploySecrets.
  rewrite requests_bind, parseSecretsFile_requests.
  destruct (outcome (parseSecretsFile env)) as [secrets|e]; [|reflexivity].
  destruct (Object_entries secrets) as [entries|]; [|reflexivity].
  rewrite requests_bind. cbn [ret trace outcome fst snd requests app].
  rewrite requests_Promise_all. f_equal.
  - induction entries as [|entry rest IH]; [reflexivity|].
    cbn [flat_map map]. rewrite IH, deployEntry_requests, entry_requests_changed.
    reflexivity.
  - induction entries as [|entry rest IH]; [reflexivity|].
    cbn [flat_map filter]. rewrite IH, deployEntry_requests, entry_requests_changed.
    now destruct (entry_changed env (resolveSsmPath env) entry).
Qed.

Lemma deploySecrets_outcome (env : Env) (secrets : value)
  (entries : list (string * value)) :
  outcome (parseSecretsFile env) = Ok secrets ->
  Object_entries secrets = Some entries ->
  outcome (deploySecrets env)
  = outcome (Promise_all (map (deployEntry env (resolveSsmPath env)) entries)).
Proof.
  intros Hparse Hentries. unfold deploySecrets.
  rewrite outcome_bind, Hparse, Hentries, outcome_bind. reflexivity.
Qed.

(** The half of C5 that holds: a put that fails rejects the whole deploy. *)
Lemma deploySecrets_put_failure_propagates
  (env : Env) (secrets : value) (entries : list (string * value))
  (name : string) (secret : value) (e : Error) :
  outcome (parseSecretsFile env) = Ok secrets ->
  Object_entries secrets = Some entries ->
  In (name, secret) entries ->
  outcome (secretChanged env (resolveSsmPath env ++ name) secret) = Ok true ->
  aws_request env (PutParameter (resolveSsmPath env ++ name)
                     (stored_value env secret)
                     "SecureString" "alias/aws/ssm" true) = Throw e ->
  exists e', outcome (deploySecrets env) = Throw e'.
Proof.
  intros Hparse Hentries Hin Hchanged Hput.
  rewrite (deploySecrets_outcome env secrets entries Hparse Hentries).
  apply Promise_all_rejected.
  exists (deployEntry env (resolveSsmPath env) (name, secret)), e. split.
  - now apply in_map.
  - now rewrite deployEntry_outcome, Hchanged, pushSecret_outcome, Hput.
Qed.

(** The part of C7 that holds.  With a [custom.secrets] whose [file] is
    absent or empty, deploy and pull both throw the missing-file error, and
    nothing at all has been called before: no request to the store, no access
    to the disk. *)
Theorem missing_file_config_throws_before_any_call (env : Env) (o : Options) :
  options env = Some o ->
  file o = None \/ file o = Some "" ->
  deploySecrets env = ([], Throw (ThrownString missing_file_message))
  /\ pullDeployedSecrets env = ([], Throw (ThrownString missing_file_message))
  /\ requests (trace (deploySecrets env)) = []
  /\ requests (trace (pullDeployedSecrets env)) = [].
Proof.
  intros Ho Hf.
  assert (deploySecrets env = ([], Throw (ThrownString missing_file_message))
          /\ pullDeployedSecrets env
             = ([], Throw (ThrownString missing_file_message))) as [Hd Hp].
  { unfold deploySecrets, pullDeployedSecrets, parseSecretsFile.
    rewrite (configured_file_missing env o Ho Hf). split; reflexivity. }
  rewrite Hd, Hp. repeat split.
Qed.

(** C7, where the code departs from it.  When the service file has no
    [custom.secrets] at all the file path is absent too, but deploy and pull
    do not throw the missing-file error: [this.options.file] is read without
    the [?.] that guards [this.options?.ssmPath] one line away, which is a
    TypeError.  Nothing has been called before the throw. *)
Theorem missing_options_throw_TypeError (env : Env) :
  options env = None ->
  deploySecrets env = ([], Throw TypeError)
  /\ pullDeployedSecrets env = ([], Throw TypeError)
  /\ outcome (deploySecrets env) <> Throw (ThrownString missing_file_message)
  /\ outcome (pullDeployedSecrets env)
     <> Throw (ThrownString missing_file_message).
Proof.
  intros Ho.
  assert (deploySecrets env = ([], Throw TypeError)
          /\ pullDeployedSecrets env = ([], Throw TypeError)) as [Hd Hp].
  { unfold deploySecrets, pullDeployedSecrets, parseSecretsFile, configured_file.
    rewrite Ho. split; reflexivity. }
  rewrite Hd, Hp. repeat split; discriminate.
Qed.

(** C8. With a secrets-file path that names no existing file, deploy goes on
    with an empty document: the decoder is not called, the file is not read,
    the operation succeeds, and no request, so no write, reaches the store. *)
Theorem deploySecrets_absent_file_is_empty_document
  (env : Env) (o : Options) (filePath : string) :
  options env = Some o -> file o = Some filePath -> filePath <> "" ->
  existsSync env filePath = false ->
  outcome (parseSecretsFile env) = Ok (VObject [])
  /\ deploySecrets env
     = ([EvExistsSync filePath;
         EvLog "Secrets file not found, skipping..." (Some entity)], Ok tt)
  /\ filter is_yaml_load (trace (deploySecrets env)) = []
  /\ requests (trace (deploySecrets env)) = []
  /\ filter is_store_write (requests (trace (deploySecrets env))) = [].
Proof.
  intros Ho Hf Hne Hex.
  assert (parseSecretsFile env
          = ([EvExistsSync filePath;
              EvLog "Secrets file not found, skipping..." (Some entity)],
             Ok (VObject []))) as Hparse.
  { unfold parseSecretsFile.
    rewrite (configured_file_set env o filePath Ho Hf Hne).
    run_plugin. now rewrite Hex. }
  assert (deploySecrets env
          = ([EvExistsSync filePath;
              EvLog "Secrets file not found, skipping..." (Some entity)],
             Ok tt)) as Hdeploy.
  { unfold deploySecrets. rewrite Hparse. reflexivity. }
  rewrite Hparse, Hdeploy. repeat split.
Qed.

(** ** Remove *)

(** The requests of a remove: the stack lookup, then the listing under the
    recorded prefix, then the deletion of the names listed. *)
Lemma removeDeployedSecrets_requests (env : Env) :
  requests (trace (removeDeployedSecrets env))
  = DescribeStacks (stackName env)
    :: match aws_request env (DescribeStacks (stackName env)) with
       | Ok (DescribeStacksResult stacks) =>
           match previousSSMPath_of stacks with
           | Some previous =>
               if truthy previous then
                 GetParametersByPath (previous ++ "/secrets") true None
                 :: match aws_request env
                            (GetParametersByPath (previous ++ "/secrets") true None)
                    with
                    | Ok (GetParametersByPathResult listed) =>
                        [DeleteParameters (map Name listed)]
                    | _ => []
                    end
               else []
           | None => []
           end
       | _ => []
       end.
Proof.
  unfold removeDeployedSecrets, getPreviousSSMPath, removeSecrets, not_awaited.
  run_plugin.
  destruct (aws_request env (DescribeStacks (stackName env)))
    as [[ | | | |stacks]|e]; simpl; try reflexivity.
  destruct (DEBUG env); simpl;
    (destruct (previousSSMPath_of stacks) as [previous|]; simpl; [|reflexivity]);
    (destruct (truthy previous); simpl; [|reflexivity]);
    (destruct (aws_request env
                 (GetParametersByPath (previous ++ "/secrets") true None))
      as [[ |  |listed | | ]|e]; simpl; try reflexivity);
    destruct (aws_request env (DeleteParameters (map Name listed)));
    reflexivity.
Qed.

(** C5, where the code departs from it: [removeDeployedSecrets] does not
    await [removeSecrets], so when the deletion is refused the operation
    still reports the secrets removed and resolves; the rejection is left
    unhandled instead of propagating out of the operation. *)
Theorem removeDeployedSecrets_drops_delete_failure
  (env : Env) (stacks : list Stack) (previous : string)
  (listed : list SsmParameter) (e : Error) :
  aws_request env (DescribeStacks (stackName env))
    = Ok (DescribeStacksResult stacks) ->
  previousSSMPath_of stacks = Some previous ->
  previous <> "" ->
  aws_request env (GetParametersByPath (previous ++ "/secrets") true None)
    = Ok (GetParametersByPathResult listed) ->
  aws_request env (DeleteParameters (map Name listed)) = Throw e ->
  outcome (removeDeployedSecrets env) = Ok tt
  /\ In (EvRequest (DeleteParameters (map Name listed)))
        (trace (removeDeployedSecrets env))
  /\ In (EvUnhandledRejection e) (trace (removeDeployedSecrets env))
  /\ In (EvLog ("Secrets in " ++ previous ++ " removed.") (Some entity))
        (trace (removeDeployedSecrets env)).
Proof.
  intros Hstack Hprev Hne Hlist Hdelete.
  destruct previous as [|c previous]; [congruence|]. simpl in Hlist.
  unfold removeDeployedSecrets, getPreviousSSMPath, removeSecrets, not_awaited.
  run_plugin. rewrite Hstack. simpl. rewrite Hprev.
  destruct (DEBUG env); simpl; rewrite Hlist; simpl; rewrite Hdelete; simpl;
    repeat split; auto 10.
Qed.

(** ** Pull *)

Lemma pullEntry_trace (env : Env) (prefix : string) (secret : SsmParameter) :
  trace (pullEntry env prefix secret) = [].
Proof.
  unfold pullEntry. run_plugin. now destruct (JSON_parse env (Value secret)).
Qed.

Lemma array_map_trace_nil {A B} (f : A -> M B) (l : list A) :
  (forall x, trace (f x) = []) -> trace (array_map f l) = [].
Proof.
  intros Hf. induction l as [|x r IH]; [reflexivity|].
  simpl. rewrite trace_bind, Hf. simpl.
  destruct (outcome (f x)); [|reflexivity].
  rewrite trace_bind, IH. simpl. now destruct (outcome (array_map f r)).
Qed.

(** A callback that throws on one item makes the whole [map] throw. *)
Lemma array_map_throws {A B} (f : A -> M B) (l : list A) (x : A) (e : Error) :
  In x l -> outcome (f x) = Throw e ->
  exists e', outcome (array_map f l) = Throw e'.
Proof.
  intros Hin Hx. induction l as [|y r IH]; [contradiction|].
  simpl. rewrite outcome_bind.
  destruct Hin as [-> | Hin].
  - rewrite Hx. eauto.
  - destruct (outcome (f y)); [|eauto].
    rewrite outcome_bind. destruct (IH Hin) as [e' ->]. eauto.
Qed.

Lemma pullEntry_outcome (env : Env) (prefix : string) (secret : SsmParameter) :
  outcome (pullEntry env prefix secret)
  = match JSON_parse env (Value secret) with
    | Ok v => Ok (replace_first_with_empty (Name secret) prefix, v)
    | Throw e => Throw e
    end.
Proof.
  unfold pullEntry. run_plugin. now destruct (JSON_parse env (Value secret)).
Qed.

(** Decoding the listed entries calls no collaborator. *)
Lemma array_map_pullEntry (env : Env) (prefix : string)
  (parameters : list SsmParameter) :
  exists r, array_map (pullEntry env prefix) parameters = ([], r).
Proof.
  pose proof (array_map_trace_nil (pullEntry env prefix) parameters
                (pullEntry_trace env prefix)) as H.
  destruct (array_map _ parameters) as [tr r]. simpl in H. subst. eauto.
Qed.

(** The requests of a pull: the listing under the resolved prefix, once the
    file path is known. *)
Lemma pullDeployedSecrets_requests (env : Env) :
  requests (trace (pullDeployedSecrets env))
  = match outcome (configured_file env) with
    | Ok _ => [GetParametersByPath (resolveSsmPath env) true (Some true)]
    | Throw _ => []
    end.
Proof.
  unfold pullDeployedSecrets.
  destruct (configured_file env) as [tr [filePath|e]] eqn:Hc;
    pose proof (configured_file_trace env) as Htr; rewrite Hc in Htr;
    simpl in Htr; subst tr; [|reflexivity].
  unfold pullSecrets. run_plugin.
  destruct (aws_request env _) as [resp|e]; simpl; [|reflexivity].
  destruct (DEBUG env); simpl;
    (destruct resp as [ | |parameters| | ]; simpl; try reflexivity);
    (destruct (array_map_pullEntry env (resolveSsmPath env) parameters)
      as [[entries|e] ->]; simpl; [|reflexivity]);
    (destruct (yaml_dump env _) as [content|e]; simpl; [|reflexivity]);
    destruct (writeFileSync env filePath content); reflexivity.
Qed.

(** Pull never calls the YAML decoder. *)
Lemma pullDeployedSecrets_no_yaml_load (env : Env) :
  filter is_yaml_load (trace (pullDeployedSecrets env)) = [].
Proof.
  unfold pullDeployedSecrets.
  destruct (configured_file env) as [tr [filePath|e]] eqn:Hc;
    pose proof (configured_file_trace env) as Htr; rewrite Hc in Htr;
    simpl in Htr; subst tr; [|reflexivity].
  unfold pullSecrets. run_plugin.
  destruct (aws_request env _) as [resp|e]; simpl; [|reflexivity].
  destruct (DEBUG env); simpl;
    (destruct resp as [ | |parameters| | ]; simpl; try reflexivity);
    (destruct (array_map_pullEntry env (resolveSsmPath env) parameters)
      as [[entries|e] ->]; simpl; [|reflexivity]);
    (destruct (yaml_dump env _) as [content|e]; simpl; [|reflexivity]);
    destruct (writeFileSync env filePath content); reflexivity.
Qed.

(** C10. Pull decodes the listed values with [JSON.parse], never with the
    YAML decoder.  So when the value of one listed entry is not valid JSON,
    pull throws and the local file is not written; and a scalar secret is
    such a value whenever it is not itself JSON text, since [pushSecret]
    stores a scalar as it is, without encoding it. *)
Theorem pullDeployedSecrets_throws_on_non_json_value
  (env : Env) (o : Options) (filePath : string)
  (listed : list SsmParameter) (secret : SsmParameter) (e : Error) :
  options env = Some o -> file o = Some filePath -> filePath <> "" ->
  aws_request env (GetParametersByPath (resolveSsmPath env) true (Some true))
    = Ok (GetParametersByPathResult listed) ->
  In secret listed ->
  JSON_parse env (Value secret) = Throw e ->
  (exists e', outcome (pullDeployedSecrets env) = Throw e')
  /\ filter is_write (trace (pullDeployedSecrets env)) = []
  /\ filter is_yaml_load (trace (pullDeployedSecrets env)) = []
  /\ (forall name scalar,
         isObject scalar = false ->
         requests (trace (pushSecret env name scalar))
         = [PutParameter name scalar "SecureString" "alias/aws/ssm" true]).
Proof.
  intros Ho Hf Hne Hlist Hin Hparse.
  split; [|split; [|split]].
  3: apply pullDeployedSecrets_no_yaml_load.
  3: { intros name scalar Hscalar. rewrite pushSecret_requests.
       unfold stored_value. now rewrite Hscalar. }
  all: unfold pullDeployedSecrets;
    rewrite (configured_file_set env o filePath Ho Hf Hne);
    unfold pullSecrets; run_plugin; rewrite Hlist; simpl;
    destruct (array_map_pullEntry env (resolveSsmPath env) listed) as [r Hr];
    destruct (array_map_throws (pullEntry env (resolveSsmPath env)) listed
                secret e Hin) as [e' He'];
    try (rewrite pullEntry_outcome, Hparse; reflexivity);
    rewrite Hr in He'; simpl in He'; subst r;
    destruct (DEBUG env); simpl; rewrite Hr; simpl; eauto.
Qed.

(** ** Remote paths *)

(** C6, as the code has it.  Deploy builds the path of an entry by plain
    concatenation of the resolved prefix and the name, the same for the get
    and for the put of that entry, so a put is always of a path that was
    fetched in the same operation.  Pull lists under the resolved prefix
    itself.  Remove deletes exactly the names that its own listing
    returned. *)
Theorem remote_paths_by_plain_concatenation (env : Env) :
  let prefix := resolveSsmPath env in
  (forall req,
      In req (requests (trace (deploySecrets env))) ->
      exists secrets entries name secret,
        outcome (parseSecretsFile env) = Ok secrets
        /\ Object_entries secrets = Some entries
        /\ In (name, secret) entries
        /\ In (GetParameter (prefix ++ name) true)
              (requests (trace (deploySecrets env)))
        /\ (req = GetParameter (prefix ++ name) true
            \/ req = PutParameter (prefix ++ name) (stored_value env secret)
                       "SecureString" "alias/aws/ssm" true))
  /\ (forall req,
         In req (requests (trace (pullDeployedSecrets env))) ->
         req = GetParametersByPath prefix true (Some true))
  /\ (forall names,
         In (DeleteParameters names)
            (requests (trace (removeDeployedSecrets env))) ->
         exists path listed,
           In (GetParametersByPath path true None)
              (requests (trace (removeDeployedSecrets env)))
           /\ aws_request env (GetParametersByPath path true None)
              = Ok (GetParametersByPathResult listed)
           /\ names = map Name listed).
Proof.
  intros prefix. subst prefix. split; [|split].
  - intros req. rewrite deploySecrets_requests.
    destruct (outcome (parseSecretsFile env)) as [secrets|e]; [|contradiction].
    destruct (Object_entries secrets) as [entries|] eqn:Hentries;
      [|contradiction].
    intros Hin.
    assert (exists entry,
               In entry entries
               /\ (req = get_request (resolveSsmPath env) entry
                   \/ req = put_request env (resolveSsmPath env) entry))
      as [[name secret] [Hentry Hreq]].
    { apply in_app_or in Hin as [Hin | Hin];
        apply in_map_iff in Hin as [entry [<- Hin]].
      - exists entry. auto.
      - apply filter_In in Hin as [Hin _]. exists entry. auto. }
    exists secrets, entries, name, secret.
    split; [reflexivity|]. split; [assumption|]. split; [assumption|].
    split; [|exact Hreq].
    apply in_or_app. left.
    apply (in_map (get_request (resolveSsmPath env)) _ _ Hentry).
  - intros req. rewrite pullDeployedSecrets_requests.
    destruct (outcome (configured_file env)); simpl; intuition congruence.
  - intros names. rewrite removeDeployedSecrets_requests.
    destruct (aws_request env (DescribeStacks (stackName env)))
      as [[ | | | |stacks]|e]; simpl; try (intuition congruence).
    destruct (previousSSMPath_of stacks) as [previous|]; simpl;
      [|intuition congruence].
    destruct (truthy previous); simpl; [|intuition congruence].
    destruct (aws_request env
                (GetParametersByPath (previous ++ "/secrets") true None))
      as [[ |  |listed | | ]|e] eqn:Hlist; simpl; try (intuition congruence).
    intros [H | [H | [H | []]]]; try discriminate.
    injection H as <-.
    exists (previous ++ "/secrets")%string, listed. auto.
Qed.

(** ** The operations on the test service *)

(** The scenario of the specification: [db] is unchanged, [api] has a new
    [ttl]; deploy fetches both and writes [api] only. *)
Example deploySecrets_writes_changed_entries_only :
  requests (trace (deploySecrets Fixture.env))
  = [ GetParameter "/svc-dev/secrets/db" true;
      GetParameter "/svc-dev/secrets/api" true;
      PutParameter "/svc-dev/secrets/api" (VString (Fixture.api_json "30"))
        "SecureString" "alias/aws/ssm" true ]
  /\ outcome (deploySecrets Fixture.env) = Ok tt.
Proof. split; reflexivity. Qed.

(** A list at the root of the secrets file is deployed index by index. *)
Example deploySecrets_deploys_list_items :
  requests (trace (deploySecrets Fixture.env_list_file))
  = [ GetParameter "/svc-dev/secrets/0" true;
      GetParameter "/svc-dev/secrets/1" true;
      PutParameter "/svc-dev/secrets/0" (VString "a")
        "SecureString" "alias/aws/ssm" true;
      PutParameter "/svc-dev/secrets/1" (VString "b")
        "SecureString" "alias/aws/ssm" true ].
Proof. reflexivity. Qed.

(** A refused put rejects the deploy. *)
Example deploySecrets_rejected_by_read_only_store :
  outcome (deploySecrets Fixture.env_read_only)
  = Throw (ProviderError "AccessDeniedException").
Proof. reflexivity. Qed.

(** Node's comparison at work: key order, sequence order, scalar type. *)
Example isDeepStrictEqual_samples :
  isDeepStrictEqual
    (VObject [("key", VString "abc"); ("ttl", VNumber (double 30))])
    (VObject [("ttl", VNumber (double 30)); ("key", VString "abc")]) = true
  /\ isDeepStrictEqual
       (VArray [VNumber (double 1); VNumber (double 2)])
       (VArray [VNumber (double 2); VNumber (double 1)]) = false
  /\ isDeepStrictEqual (VNumber (double 1)) (VString "1") = false
  /\ isDeepStrictEqual (VArray []) (VObject []) = false.
Proof. repeat split. Qed.

(** The pull scenario of the specification: two entries holding JSON texts
    are written back as the document [{db: "pw1", api: {key: "abc", ttl: 30}}]. *)
Example pullDeployedSecrets_writes_document :
  pullDeployedSecrets Fixture.env_json
  = ([ EvRequest (GetParametersByPath "/svc-dev/secrets/" true (Some true));
       EvWriteFileSync "secrets.yml" Fixture.document_text ], Ok tt).
Proof. reflexivity. Qed.

(** With the scalar [db] stored as deploy writes it, pull stops at
    [JSON.parse] and writes nothing. *)
Example pullDeployedSecrets_stops_on_bare_scalar :
  pullDeployedSecrets Fixture.env
  = ([ EvRequest (GetParametersByPath "/svc-dev/secrets/" true (Some true)) ],
     Throw (SyntaxError "Unexpected token")).
Proof. reflexivity. Qed.

(** Remove with no recorded prefix stops after the stack lookup. *)
Example removeDeployedSecrets_without_recorded_prefix :
  removeDeployedSecrets
    (Fixture.env_with None (fun _ => Ok (DescribeStacksResult [mkStack None])))
  = ([EvRequest (DescribeStacks "svc-dev")], Ok tt).
Proof. reflexivity. Qed.

Lemma secretChanged_false_iff_deep_equal_witness :
  wf_value (VString "pw1")
  /\ aws_request Fixture.env (GetParameter "/svc-dev/secrets/db" true)
     = Ok (GetParameterResult
             (Some (mkSsmParameter "/svc-dev/secrets/db" "pw1")))
  /\ outcome (secretChanged Fixture.env "/svc-dev/secrets/db" (VString "pw1"))
     = Ok false.
Proof.
  split; [constructor|]. split; [reflexivity|].
  apply (proj1 (secretChanged_false_iff_deep_equal
                  Fixture.env "/svc-dev/secrets/db" (VString "pw1")
                  (mkSsmParameter "/svc-dev/secrets/db" "pw1")
                  (wf_string "pw1")
                  (fun v H =>
                     match H in (_ = r)
                           return (match r with
                                   | Ok w => wf_value w
                                   | Throw _ => True
                                   end)
                     with eq_refl => wf_string "pw1" end)
                  eq_refl)).
  exists (VString "pw1"). split; [reflexivity | constructor].
Defined.

Lemma secretChanged_fetch_failure_is_change_witness :
  aws_request Fixture.env (GetParameter "/svc-dev/secrets/token" true)
  = Throw (ProviderError "ParameterNotFound")
  /\ outcome (secretChanged Fixture.env "/svc-dev/secrets/token" (VString "t"))
     = Ok true
  /\ wf_value (VString "pw1")
  /\ outcome (secretChanged Fixture.env "/svc-dev/secrets/db" (VString "pw1"))
     = Ok false
  /\ exists p currentSecret,
       aws_request Fixture.env (GetParameter "/svc-dev/secrets/db" true)
       = Ok (GetParameterResult (Some p))
       /\ yaml_load Fixture.env (Value p) = Ok currentSecret
       /\ deep_equal (VString "pw1") currentSecret.
Proof.
  split; [reflexivity|]. split.
  - apply (proj1 (secretChanged_fetch_failure_is_change
                    Fixture.env "/svc-dev/secrets/token" (VString "t"))
                 (ProviderError "ParameterNotFound")).
    reflexivity.
  - split; [constructor|]. split; [reflexivity|].
    apply (proj2 (secretChanged_fetch_failure_is_change
                    Fixture.env "/svc-dev/secrets/db" (VString "pw1"))).
    + constructor.
    + intros p currentSecret [= <-] [= <-]. constructor.
    + reflexivity.
Defined.

Lemma resolveSsmPath_override_or_default_witness :
  resolveSsmPath
    (Fixture.env_with (Some (mkOptions (Some "secrets.yml") (Some "/custom/")))
       Fixture.store) = "/custom/"
  /\ resolveSsmPath Fixture.env = "/svc-dev/secrets/".
Proof.
  split.
  - apply (proj1 (resolveSsmPath_override_or_default
                    (Fixture.env_with
                       (Some (mkOptions (Some "secrets.yml") (Some "/custom/")))
                       Fixture.store))
                 (mkOptions (Some "secrets.yml") (Some "/custom/")) "/custom/");
      [reflexivity | reflexivity | discriminate].
  - apply (proj2 (resolveSsmPath_override_or_default Fixture.env)).
    intros o [= <-]. left. reflexivity.
Defined.

Lemma parseSecretsFile_accepts_list_root_witness :
  existsSync Fixture.env_list_file "list.yml" = true
  /\ readFileSync Fixture.env_list_file "list.yml" = Ok Fixture.list_text
  /\ yaml_load Fixture.env_list_file Fixture.list_text
     = Ok (VArray [VString "a"; VString "b"])
  /\ outcome (parseSecretsFile Fixture.env_list_file)
     = Ok (VArray [VString "a"; VString "b"]).
Proof.
  repeat (split; [reflexivity|]).
  apply (proj1 (parseSecretsFile_accepts_list_root
                  Fixture.env_list_file (mkOptions (Some "list.yml") None)
                  "list.yml" Fixture.list_text [VString "a"; VString "b"]
                  eq_refl eq_refl ltac:(discriminate)
                  eq_refl eq_refl eq_refl)).
Defined.

Lemma removeDeployedSecrets_drops_delete_failure_witness :
  aws_request Fixture.env
    (DeleteParameters ["/svc-dev/secrets/db"; "/svc-dev/secrets/api"])
  = Throw (ProviderError "AccessDeniedException")
  /\ outcome (removeDeployedSecrets Fixture.env) = Ok tt.
Proof.
  split; [reflexivity|].
  apply (proj1 (removeDeployedSecrets_drops_delete_failure
                  Fixture.env
                  [ mkStack (Some [ mkOutput "ServiceEndpoint" "https://example";
                                    mkOutput "SsmBasePath" "/svc-dev" ]) ]
                  "/svc-dev"
                  [ mkSsmParameter "/svc-dev/secrets/db" "pw1";
                    mkSsmParameter "/svc-dev/secrets/api" (Fixture.api_json "60") ]
                  (ProviderError "AccessDeniedException")
                  eq_refl eq_refl ltac:(discriminate) eq_refl eq_refl)).
Defined.

Lemma missing_file_config_throws_before_any_call_witness :
  file (mkOptions None None) = None
  /\ deploySecrets Fixture.env_no_file
     = ([], Throw (ThrownString missing_file_message))
  /\ pullDeployedSecrets Fixture.env_empty_file
     = ([], Throw (ThrownString missing_file_message)).
Proof.
  split; [reflexivity|]. split.
  - apply (proj1 (missing_file_config_throws_before_any_call
                    Fixture.env_no_file (mkOptions None None)
                    eq_refl (or_introl eq_refl))).
  - apply (proj1 (proj2 (missing_file_config_throws_before_any_call
                           Fixture.env_empty_file (mkOptions (Some "") None)
                           eq_refl (or_intror eq_refl)))).
Defined.

Lemma missing_options_throw_TypeError_witness :
  options (Fixture.env_with None Fixture.store) = None
  /\ deploySecrets (Fixture.env_with None Fixture.store) = ([], Throw TypeError)
  /\ pullDeployedSecrets (Fixture.env_with None Fixture.store)
     = ([], Throw TypeError).
Proof.
  split; [reflexivity|].
  destruct (missing_options_throw_TypeError
              (Fixture.env_with None Fixture.store) eq_refl)
    as [Hdeploy [Hpull _]].
  split; [exact Hdeploy | exact Hpull].
Defined.

Lemma deploySecrets_absent_file_is_empty_document_witness :
  existsSync Fixture.env_absent_file "nowhere.yml" = false
  /\ requests (trace (deploySecrets Fixture.env_absent_file)) = []
  /\ outcome (deploySecrets Fixture.env_absent_file) = Ok tt.
Proof.
  split; [reflexivity|].
  pose proof (deploySecrets_absent_file_is_empty_document
                Fixture.env_absent_file (mkOptions (Some "nowhere.yml") None)
                "nowhere.yml" eq_refl eq_refl ltac:(discriminate) eq_refl)
    as [_ [Hdeploy [_ [Hrequests _]]]].
  split; [exact Hrequests | now rewrite Hdeploy].
Defined.

Lemma pullDeployedSecrets_throws_on_non_json_value_witness :
  JSON_parse Fixture.env "pw1" = Throw (SyntaxError "Unexpected token")
  /\ requests (trace (pushSecret Fixture.env "/svc-dev/secrets/db" (VString "pw1")))
     = [PutParameter "/svc-dev/secrets/db" (VString "pw1")
          "SecureString" "alias/aws/ssm" true]
  /\ filter is_write (trace (pullDeployedSecrets Fixture.env)) = [].
Proof.
  split; [reflexivity|].
  pose proof (pullDeployedSecrets_throws_on_non_json_value
                Fixture.env (mkOptions (Some "secrets.yml") None) "secrets.yml"
                [ mkSsmParameter "/svc-dev/secrets/db" "pw1";
                  mkSsmParameter "/svc-dev/secrets/api" (Fixture.api_json "60") ]
                (mkSsmParameter "/svc-dev/secrets/db" "pw1")
                (SyntaxError "Unexpected token")
                eq_refl eq_refl ltac:(discriminate) eq_refl
                (or_introl eq_refl) eq_refl)
    as [_ [Hwrite [_ Hpush]]].
  split; [apply Hpush; reflexivity | exact Hwrite].
Defined.

Lemma remote_paths_by_plain_concatenation_witness :
  In (PutParameter "/svc-dev/secrets/api" (VString (Fixture.api_json "30"))
        "SecureString" "alias/aws/ssm" true)
     (requests (trace (deploySecrets Fixture.env)))
  /\ exists name,
       In (GetParameter (resolveSsmPath Fixture.env ++ name) true)
          (requests (trace (deploySecrets Fixture.env)))
       /\ (resolveSsmPath Fixture.env ++ name)%string = "/svc-dev/secrets/api".
Proof.
  assert (In (PutParameter "/svc-dev/secrets/api"
                (VString (Fixture.api_json "30"))
                "SecureString" "alias/aws/ssm" true)
             (requests (trace (deploySecrets Fixture.env)))) as Hput
      by (vm_compute; auto).
  split; [exact Hput|].
  destruct (proj1 (remote_paths_by_plain_concatenation Fixture.env) _ Hput)
    as [secrets [entries [name [secret [_ [_ [_ [Hget [Hreq | Hreq]]]]]]]]].
  - discriminate Hreq.
  - exists name. split; [exact Hget|].
    injection Hreq as Hname _. now rewrite <- Hname.
Defined.

(** C6 as the specification states it fails: on the test service the path
    fetched for [db] is the prefix followed by the name, which is not
    [prefix + "/" + name] for any name. *)
Lemma deploySecrets_paths_not_slash_joined :
  ~ (forall req path,
        In req (requests (trace (deploySecrets Fixture.env))) ->
        request_path req = Some path ->
        exists name, path = spec_path_join (resolveSsmPath Fixture.env) name).
Proof.
  intros Hrule.
  destruct (Hrule (GetParameter "/svc-dev/secrets/db" true)
                  "/svc-dev/secrets/db") as [name Hname].
  - vm_compute. auto.
  - reflexivity.
  - vm_compute in Hname. discriminate Hname.
Qed.

(** * Further properties *)

(** ** Objects built by assignment *)

Section Assignment.

Lemma lookup_assign_same (k : string) (v : value) (props : list (string * value)) :
  lookup k (assign k v props) = Some v.
Proof.
  induction props as [|[k' w] rest IH]; simpl.
  - now rewrite String.eqb_refl.
  - destruct (String.eqb k k') eqn:E; simpl; rewrite E; [reflexivity | exact IH].
Qed.

Lemma lookup_assign_other (k k' : string) (v : value)
  (props : list (string * value)) :
  k' <> k -> lookup k' (assign k v props) = lookup k' props.
Proof.
  intros Hne. induction props as [|[k0 w] rest IH]; simpl.
  - apply String.eqb_neq in Hne. now rewrite Hne.
  - destruct (String.eqb k k0) eqn:E; simpl.
    + apply String.eqb_eq in E. subst k0.
      apply String.eqb_neq in Hne. now rewrite Hne.
    + destruct (String.eqb k' k0); [reflexivity | exact IH].
Qed.

Lemma keys_assign (k : string) (v : value) (props : list (string * value)) :
  keys (assign k v props)
  = if existsb (String.eqb k) (keys props) then keys props
    else keys props ++ [k].
Proof.
  induction props as [|[k' w] rest IH]; simpl; [reflexivity|].
  destruct (String.eqb k k') eqn:E; simpl; [reflexivity|].
  rewrite IH. now destruct (existsb (String.eqb k) (keys rest)).
Qed.

Lemma NoDup_keys_assign (k : string) (v : value) (props : list (string * value)) :
  NoDup (keys props) -> NoDup (keys (assign k v props)).
Proof.
  intros Hnd. rewrite keys_assign.
  destruct (existsb (String.eqb k) (keys props)) eqn:E; [assumption|].
  apply NoDup_app; [assumption | repeat constructor; intros [] | ].
  intros k' Hin [<- | []].
  assert (existsb (String.eqb k) (keys props) = true) as Hex
      by (apply existsb_exists; exists k; split;
          [assumption | apply String.eqb_refl]).
  congruence.
Qed.

Lemma assign_fresh (k : string) (v : value) (props : list (string * value)) :
  ~ In k (keys props) -> assign k v props = props ++ [(k, v)].
Proof.
  induction props as [|[k' w] rest IH]; simpl; [reflexivity|].
  intros Hnotin. destruct (String.eqb k k') eqn:E.
  - apply String.eqb_eq in E. subst. tauto.
  - rewrite IH; [reflexivity | tauto].
Qed.

Lemma Forall_wf_assign (k : string) (v : value) (props : list (string * value)) :
  wf_value v -> Forall (fun kv => wf_value (snd kv)) props ->
  Forall (fun kv => wf_value (snd kv)) (assign k v props).
Proof.
  intros Hv. induction 1 as [|[k' w] rest Hw Hrest IH]; simpl.
  - now repeat constructor.
  - destruct (String.eqb k k'); constructor; auto.
Qed.

(** The fold of [Object.fromEntries] from any object built so far. *)
Lemma fold_assign_spec (entries acc : list (string * value)) :
  NoDup (keys acc) ->
  let props := fold_left (fun a kv => assign (fst kv) (snd kv) a) entries acc in
  NoDup (keys props)
  /\ (forall k, lookup k props
                = match lookup k (rev entries) with
                  | Some v => Some v
                  | None => lookup k acc
                  end).
Proof.
  revert acc. induction entries as [|[k v] rest IH]; intros acc Hnd; simpl.
  - split; [assumption | reflexivity].
  - destruct (IH (assign k v acc) (NoDup_keys_assign k v acc Hnd)) as [H1 H2].
    split; [exact H1|]. intros k0. rewrite H2.
    assert (forall l, lookup k0 (l ++ [(k, v)])
                      = match lookup k0 l with
                        | Some w => Some w
                        | None => if String.eqb k0 k then Some v else None
                        end) as Happ.
    { induction l as [|[k1 w1] l IHl]; simpl; [reflexivity|].
      destruct (String.eqb k0 k1); [reflexivity | exact IHl]. }
    rewrite Happ. destruct (lookup k0 (rev rest)); [reflexivity|].
    destruct (String.eqb k0 k) eqn:E.
    + apply String.eqb_eq in E. subst. apply lookup_assign_same.
    + apply String.eqb_neq in E. now apply lookup_assign_other.
Qed.

Lemma Permutation_insert_by_index (kv : string * value)
  (sorted : list (string * value)) :
  Permutation (insert_by_index kv sorted) (kv :: sorted).
Proof.
  induction sorted as [|x rest IH]; simpl; [reflexivity|].
  destruct (N.leb (index_of kv) (index_of x)); [reflexivity|].
  rewrite IH. apply perm_swap.
Qed.

Lemma Permutation_sort_by_index (props : list (string * value)) :
  Permutation (sort_by_index props) props.
Proof.
  induction props as [|kv rest IH]; simpl; [reflexivity|].
  rewrite Permutation_insert_by_index. now constructor.
Qed.

Lemma Permutation_own_property_order (created : list (string * value)) :
  Permutation (own_property_order created) created.
Proof.
  unfold own_property_order. rewrite Permutation_sort_by_index.
  induction created as [|kv rest IH]; simpl; [reflexivity|].
  destruct (is_array_index kv); simpl.
  - now constructor.
  - rewrite <- Permutation_middle. now constructor.
Qed.

(** Array indices come out in ascending order. *)
Lemma Sorted_sort_by_index (props : list (string * value)) :
  Sorted (fun a b => (index_of a <= index_of b)%N) (sort_by_index props).
Proof.
  assert (forall kv sorted,
             Sorted (fun a b => (index_of a <= index_of b)%N) sorted ->
             Sorted (fun a b => (index_of a <= index_of b)%N)
                    (insert_by_index kv sorted)) as Hinsert.
  { intros kv sorted. induction 1 as [|x rest Hrest IH Hhd]; simpl.
    - repeat constructor.
    - destruct (N.leb (index_of kv) (index_of x)) eqn:E.
      + apply N.leb_le in E. repeat constructor; assumption.
      + apply N.leb_gt in E. constructor; [exact IH|].
        destruct rest as [|y rest]; simpl.
        * constructor. lia.
        * destruct (N.leb (index_of kv) (index_of y)); constructor;
            [lia | now inversion Hhd]. }
  induction props as [|kv rest IH]; simpl; [constructor | now apply Hinsert].
Qed.

Lemma own_property_order_without_index (created : list (string * value)) :
  (forall kv, In kv created -> array_index (fst kv) = None) ->
  own_property_order created = created.
Proof.
  intros Hnone. unfold own_property_order.
  assert (forall kv, In kv created -> is_array_index kv = false) as H.
  { intros kv Hin. unfold is_array_index. now rewrite (Hnone kv Hin). }
  clear Hnone. induction created as [|kv rest IH]; [reflexivity|].
  simpl. rewrite (H kv (or_introl eq_refl)). simpl.
  assert (filter is_array_index rest = []) as Hnil.
  { clear IH. induction rest as [|x r IHr]; [reflexivity|]. simpl.
    rewrite (H x (or_intror (or_introl eq_refl))). apply IHr.
    intros y [<- | Hy]; apply H; [now left | right; now right]. }
  rewrite Hnil in *. simpl in *. f_equal. apply IH.
  intros x Hx. apply H. now right.
Qed.

Lemma lookup_Permutation (k : string) (props props' : list (string * value)) :
  NoDup (keys props) -> Permutation props props' ->
  lookup k props = lookup k props'.
Proof.
  intros Hnd Hperm.
  assert (NoDup (keys props')) as Hnd'
      by (apply (Permutation_NoDup (Permutation_map fst Hperm) Hnd)).
  destruct (lookup k props) as [v|] eqn:E.
  - apply lookup_In in E. symmetry. apply In_lookup; [exact Hnd'|].
    now apply (Permutation_in _ Hperm).
  - symmetry. apply lookup_None. apply lookup_None in E. intros Hin. apply E.
    apply (Permutation_in _ (Permutation_sym (Permutation_map fst Hperm))).
    exact Hin.
Qed.

(** X1. [Object.fromEntries] never yields a key twice, and under each key
    holds the value of the last entry with that key. *)
Theorem Object_fromEntries_last_entry_wins (entries : list (string * value)) :
  exists props,
    Object_fromEntries entries = VObject props
    /\ NoDup (keys props)
    /\ (forall k, lookup k props = lookup k (rev entries))
    /\ (forall k, In k (keys props) <-> In k (keys entries)).
Proof.
  unfold Object_fromEntries.
  destruct (fold_assign_spec entries [] (NoDup_nil _)) as [Hnd Hlookup].
  set (created := fold_left (fun a kv => assign (fst kv) (snd kv) a) entries [])
    in *.
  pose proof (Permutation_own_property_order created) as Hperm.
  assert (NoDup (keys (own_property_order created))) as Hnd'
      by (apply (Permutation_NoDup
                   (Permutation_map fst (Permutation_sym Hperm)) Hnd)).
  eexists. split; [reflexivity|]. split; [exact Hnd'|].
  assert (forall k, lookup k (own_property_order created)
                    = lookup k (rev entries)) as Hl.
  { intros k. rewrite (lookup_Permutation k _ _ Hnd' Hperm), Hlookup.
    now destruct (lookup k (rev entries)). }
  split; [exact Hl|].
  intros k.
  assert (forall l, In k (keys l) <-> lookup k l <> None) as Hin.
  { intros l. pose proof (lookup_None k l) as H.
    destruct (in_dec String.string_dec k (keys l)); split; intros;
      [rewrite H; tauto | assumption | tauto | ].
    exfalso. apply H0. now apply H. }
  rewrite Hin, Hl, <- Hin. unfold keys. rewrite map_rev. symmetry. apply in_rev.
Qed.

Lemma fold_assign_distinct (entries : list (string * value)) :
  forall acc, NoDup (keys (acc ++ entries)) ->
              fold_left (fun a kv => assign (fst kv) (snd kv) a) entries acc
              = acc ++ entries.
Proof.
  induction entries as [|[k v] rest IH]; intros acc Hnd; simpl.
  - now rewrite app_nil_r.
  - rewrite assign_fresh.
    + rewrite IH; rewrite <- app_assoc; [reflexivity | exact Hnd].
    + unfold keys in Hnd. rewrite map_app in Hnd. simpl in Hnd.
      apply NoDup_remove_2 in Hnd. intros Hin. apply Hnd.
      apply in_or_app. now left.
Qed.

Lemma Object_fromEntries_distinct (entries : list (string * value)) :
  NoDup (keys entries) ->
  Object_fromEntries entries = VObject (own_property_order entries).
Proof.
  intros Hnd. unfold Object_fromEntries.
  now rewrite (fold_assign_distinct entries [] Hnd).
Qed.

(** X2. On entries with pairwise different keys [Object.fromEntries] keeps
    every entry and lists them in the property order of JavaScript: first
    the entries whose key is an array index, in ascending numeric order, then
    the others in the order of the entries.  So entries without any array
    index among their keys are kept as they are, in their order. *)
Theorem Object_fromEntries_distinct_keys (entries : list (string * value)) :
  NoDup (keys entries) ->
  (exists indexed named,
      Object_fromEntries entries = VObject (indexed ++ named)
      /\ Permutation indexed (filter is_array_index entries)
      /\ Sorted (fun a b => (index_of a <= index_of b)%N) indexed
      /\ named = filter (fun kv => negb (is_array_index kv)) entries)
  /\ ((forall kv, In kv entries -> array_index (fst kv) = None) ->
      Object_fromEntries entries = VObject entries).
Proof.
  intros Hnd. rewrite (Object_fromEntries_distinct entries Hnd). split.
  - exists (sort_by_index (filter is_array_index entries)),
      (filter (fun kv => negb (is_array_index kv)) entries).
    split; [reflexivity|].
    split; [apply Permutation_sort_by_index|].
    split; [apply Sorted_sort_by_index | reflexivity].
  - intros Hnone. now rewrite own_property_order_without_index.
Qed.

Lemma Object_fromEntries_distinct_keys_witness :
  NoDup (keys [("db", VString "pw1"); ("api", Fixture.api 30)])
  /\ Object_fromEntries [("db", VString "pw1"); ("api", Fixture.api 30)]
     = Fixture.document.
Proof.
  assert (NoDup (keys [("db", VString "pw1"); ("api", Fixture.api 30)])) as Hnd.
  { repeat constructor; simpl; intuition discriminate. }
  split; [exact Hnd|].
  apply (proj2 (Object_fromEntries_distinct_keys _ Hnd)).
  intros kv [<- | [<- | []]]; reflexivity.
Defined.

(** Names that are array indices move to the front, in numeric order. *)
Example Object_fromEntries_lists_indices_first :
  Object_fromEntries
    [("b", VNull); ("0", VNull); ("10", VNull); ("9", VNull); ("07", VNull)]
  = VObject
      [("0", VNull); ("9", VNull); ("10", VNull); ("b", VNull); ("07", VNull)].
Proof. reflexivity. Qed.

End Assignment.

(** ** Stripping the prefix *)

Section Strip.

Lemma prefix_append (pattern rest : string) :
  String.prefix pattern (pattern ++ rest) = true.
Proof.
  induction pattern as [|c pattern IH]; simpl.
  - now destruct rest.
  - destruct (Ascii.ascii_dec c c); [exact IH | congruence].
Qed.

Lemma drop_append (pattern rest : string) :
  drop (String.length pattern) (pattern ++ rest) = rest.
Proof. induction pattern as [|c pattern IH]; simpl; [reflexivity | exact IH]. Qed.

Lemma prefix_split (pattern s : string) :
  String.prefix pattern s = true ->
  s = (pattern ++ drop (String.length pattern) s)%string.
Proof.
  revert s. induction pattern as [|c pattern IH]; intros s.
  - reflexivity.
  - destruct s as [|c' s]; simpl; [discriminate|].
    destruct (Ascii.ascii_dec c c'); [|discriminate].
    intros H. subst. f_equal. now apply IH.
Qed.

Lemma replace_first_with_empty_eq (s pattern : string) :
  replace_first_with_empty s pattern
  = if String.prefix pattern s then drop (String.length pattern) s
    else match s with
         | EmptyString => EmptyString
         | String c r => String c (replace_first_with_empty r pattern)
         end.
Proof. destruct s; reflexivity. Qed.

(** X3. The name that pull recovers from a path that deploy built is the
    name deploy started from: removing the prefix from [prefix + name] gives
    [name] back, whatever the two strings are. *)
Theorem replace_first_with_empty_strips_prefix (prefix name : string) :
  replace_first_with_empty (prefix ++ name) prefix = name.
Proof.
  rewrite replace_first_with_empty_eq, prefix_append. apply drop_append.
Qed.

(** X4. [replace] removes one occurrence of the pattern wherever it is, not
    only at the start, and leaves a string without occurrence as it is. *)
Theorem replace_first_with_empty_removes_an_occurrence (s pattern : string) :
  (exists before after,
      s = (before ++ pattern ++ after)%string
      /\ replace_first_with_empty s pattern = (before ++ after)%string)
  \/ ((forall before after, s <> (before ++ pattern ++ after)%string)
      /\ replace_first_with_empty s pattern = s).
Proof.
  induction s as [|c r IH]; rewrite replace_first_with_empty_eq.
  - destruct (String.prefix pattern "") eqn:E.
    + left. exists "", "". apply prefix_split in E.
      destruct pattern; [split; reflexivity | discriminate E].
    + right. split; [|reflexivity].
      intros before after H. destruct before; [|discriminate].
      destruct pattern; [discriminate E | discriminate H].
  - destruct (String.prefix pattern (String c r)) eqn:E.
    + left. exists "", (drop (String.length pattern) (String c r)).
      split; [|reflexivity]. now apply prefix_split.
    + destruct IH as [[before [after [Hs Hr]]] | [Hnone Hr]].
      * left. exists (String c before), after. rewrite Hr. simpl.
        split; [now rewrite Hs at 1 | reflexivity].
      * right. split; [|now rewrite Hr].
        intros before after H. destruct before as [|c' before].
        -- simpl in H. rewrite H, prefix_append in E. discriminate.
        -- injection H as _ H. now apply (Hnone before after).
Qed.

End Strip.

(** ** Deep equality is an equivalence *)

Section DeepEqualityEquivalence.

Lemma deep_equal_sym (a : value) : forall b, deep_equal a b -> deep_equal b a.
Proof.
  induction a as [ | | x | x | x | la IH | pa IH] using value_rect_nested;
    intros b H; inversion H as [ | | | | | ? lb HF | ? pb Hk Hv]; subst;
    try constructor.
  - clear H. revert lb HF.
    induction la as [|x xs IHl]; intros lb HF; inversion HF; subst;
      constructor; inversion IH; subst; auto.
  - intros k. symmetry. apply Hk.
  - intros k vb va Hb Ha. rewrite Forall_forall in IH.
    apply (IH _ Ha). now apply (Hv k).
Qed.

Lemma In_keys_inv (k : string) (props : list (string * value)) :
  In k (keys props) -> exists v, In (k, v) props.
Proof.
  intros H. apply in_map_iff in H as [[k' v] [<- Hin]]. now exists v.
Qed.

Lemma deep_equal_trans (a : value) :
  forall b c, deep_equal a b -> deep_equal b c -> deep_equal a c.
Proof.
  induction a as [ | | x | x | x | la IH | pa IH] using value_rect_nested;
    intros b c Hab Hbc;
    inversion Hab as [ | | | | | ? lb HF | ? pb Hk Hv]; subst;
    inversion Hbc as [ | | | | | ? lc HF' | ? pc Hk' Hv']; subst;
    try constructor.
  - clear Hab Hbc. revert lb lc HF HF'.
    induction la as [|x xs IHl]; intros lb lc HF HF';
      inversion HF; subst; inversion HF'; subst; constructor;
      inversion IH; subst; eauto.
  - intros k. rewrite Hk. apply Hk'.
  - intros k va vc Ha Hc. rewrite Forall_forall in IH.
    assert (In k (keys pb)) as Hkb by (apply Hk; now apply In_keys in Ha).
    destruct (In_keys_inv _ _ Hkb) as [vb Hb].
    apply (IH _ Ha vb vc); [now apply (Hv k) | now apply (Hv' k)].
Qed.

Lemma iff_bool_eq (x y : bool) : (x = true <-> y = true) -> x = y.
Proof. destruct x, y; intuition congruence. Qed.

(** X5. On values whose objects hold no key twice, [isDeepStrictEqual] is an
    equivalence: every value equals itself, the answer does not depend on
    which side is the local value, and two values equal to a third are
    equal. *)
Theorem isDeepStrictEqual_equivalence (a b c : value) :
  wf_value a -> wf_value b -> wf_value c ->
  isDeepStrictEqual a a = true
  /\ isDeepStrictEqual a b = isDeepStrictEqual b a
  /\ (isDeepStrictEqual a b = true -> isDeepStrictEqual b c = true ->
      isDeepStrictEqual a c = true).
Proof.
  intros Ha Hb Hc. split; [|split].
  - apply isDeepStrictEqual_deep_equal; [assumption..|].
    now apply deep_equal_refl.
  - apply iff_bool_eq.
    rewrite (isDeepStrictEqual_deep_equal a b Ha Hb),
            (isDeepStrictEqual_deep_equal b a Hb Ha).
    split; apply deep_equal_sym.
  - rewrite (isDeepStrictEqual_deep_equal a b Ha Hb),
            (isDeepStrictEqual_deep_equal b c Hb Hc),
            (isDeepStrictEqual_deep_equal a c Ha Hc).
    apply deep_equal_trans.
Qed.

Lemma isDeepStrictEqual_equivalence_witness :
  wf_value (Fixture.api 30)
  /\ isDeepStrictEqual (Fixture.api 30) (Fixture.api 60)
     = isDeepStrictEqual (Fixture.api 60) (Fixture.api 30).
Proof.
  assert (forall ttl, wf_value (Fixture.api ttl)) as Hwf.
  { intros ttl. constructor.
    - repeat constructor; simpl; intuition discriminate.
    - repeat constructor. }
  split; [apply Hwf|].
  exact (proj1 (proj2 (isDeepStrictEqual_equivalence
                         (Fixture.api 30) (Fixture.api 60) (Fixture.api 30)
                         (Hwf 30%Z) (Hwf 60%Z) (Hwf 30%Z)))).
Defined.

(** Without the invariant the comparison is not even reflexive: a list of
    properties with a repeated key is not equal to itself, which is why
    [wf_value] is asked for above. *)
Example isDeepStrictEqual_needs_distinct_keys :
  isDeepStrictEqual (VObject [("k", VNull); ("k", VBool true)])
                    (VObject [("k", VNull); ("k", VBool true)]) = false.
Proof. reflexivity. Qed.

End DeepEqualityEquivalence.

(** ** More on the monad *)

Section MonadFacts.

Lemma trace_try_catch {A} (body : M A) (handler : Error -> M A) :
  trace (try_catch body handler)
  = trace body ++ match outcome body with
                  | Ok _ => []
                  | Throw e => trace (handler e)
                  end.
Proof.
  destruct body as [tr [a|e]]; simpl.
  - now rewrite app_nil_r.
  - now destruct (handler e).
Qed.

Lemma outcome_try_catch {A} (body : M A) (handler : Error -> M A) :
  outcome (try_catch body handler)
  = match outcome body with
    | Ok a => Ok a
    | Throw e => outcome (handler e)
    end.
Proof.
  destruct body as [tr [a|e]]; simpl; [reflexivity|]. now destruct (handler e).
Qed.

Lemma Forall_synchronous_part (P : Event -> Prop) (tr : list Event) :
  Forall P tr ->
  Forall P (synchronous_part tr) /\ Forall P (after_first_request tr).
Proof.
  intros H. rewrite <- (synchronous_part_split tr) in H.
  now apply Forall_app in H.
Qed.

Lemma quiet_synchronous_part (tr : list Event) :
  quiet (synchronous_part tr) = synchronous_part (quiet tr).
Proof.
  unfold quiet. induction tr as [|ev tr IH]; [reflexivity|].
  destruct ev; simpl; try (now rewrite IH); reflexivity.
Qed.

Lemma quiet_after_first_request (tr : list Event) :
  quiet (after_first_request tr) = after_first_request (quiet tr).
Proof.
  unfold quiet. induction tr as [|ev tr IH]; [reflexivity|].
  destruct ev; simpl; try (now rewrite IH); reflexivity.
Qed.

(** Events of one kind only: sequencing, catching and batches keep it so. *)
Lemma Forall_bind {A B} (P : Event -> Prop) (m : M A) (k : A -> M B) :
  Forall P (trace m) -> (forall a, Forall P (trace (k a))) ->
  Forall P (trace (bind m k)).
Proof.
  intros Hm Hk. rewrite trace_bind. apply Forall_app. split; [assumption|].
  destruct (outcome m); [apply Hk | constructor].
Qed.

Lemma Forall_try_catch {A} (P : Event -> Prop) (body : M A)
  (handler : Error -> M A) :
  Forall P (trace body) -> (forall e, Forall P (trace (handler e))) ->
  Forall P (trace (try_catch body handler)).
Proof.
  intros Hb Hh. rewrite trace_try_catch. apply Forall_app. split; [assumption|].
  destruct (outcome body); [constructor | apply Hh].
Qed.

Lemma Forall_Promise_all {A B} (P : Event -> Prop) (f : B -> M A) (l : list B) :
  (forall x, Forall P (trace (f x))) ->
  Forall P (trace (Promise_all (map f l))).
Proof.
  intros Hf. unfold Promise_all, trace at 1. cbn [fst].
  apply Forall_app. split;
    (induction l as [|x r IH]; simpl; [constructor|]);
    (apply Forall_app; split; [|exact IH]);
    apply (Forall_synchronous_part P (trace (f x)) (Hf x)).
Qed.

Lemma Forall_not_awaited {A} (P : Event -> Prop) (m : M A) :
  Forall P (trace m) -> Forall P (trace (not_awaited m)).
Proof. intros H. apply (Forall_synchronous_part P (trace m) H). Qed.

Lemma Forall_settles_later {A} (P : Event -> Prop) (m : M A) :
  Forall P (trace m) -> (forall e, P (EvUnhandledRejection e)) ->
  Forall P (trace (settles_later m)).
Proof.
  intros H HP. unfold settles_later, trace at 1. cbn [fst].
  apply Forall_app. split; [apply (Forall_synchronous_part P (trace m) H)|].
  destruct (outcome m); repeat constructor. apply HP.
Qed.

Lemma Forall_debug_log (P : Event -> Prop) (env : Env) (what : string)
  (r : Response) :
  (forall msg who, P (EvLog msg who)) -> Forall P (trace (debug_log env what r)).
Proof.
  intros HP. unfold debug_log. destruct (DEBUG env); repeat constructor. apply HP.
Qed.

(** Runs that differ in their log lines only. *)
Lemma observable_bind {A B} (m m' : M A) (k k' : A -> M B) :
  observable m = observable m' ->
  (forall a, observable (k a) = observable (k' a)) ->
  observable (bind m k) = observable (bind m' k').
Proof.
  unfold observable, quiet. intros [= Htr Hout] Hk.
  rewrite !trace_bind, !outcome_bind, !filter_app, Htr, Hout.
  destruct (outcome m') as [a|e]; [|reflexivity].
  specialize (Hk a). injection Hk as Hk1 Hk2. now rewrite Hk1, Hk2.
Qed.

Lemma observable_try_catch {A} (body body' : M A) (handler handler' : Error -> M A) :
  observable body = observable body' ->
  (forall e, observable (handler e) = observable (handler' e)) ->
  observable (try_catch body handler) = observable (try_catch body' handler').
Proof.
  unfold observable, quiet. intros [= Htr Hout] Hh.
  rewrite !trace_try_catch, !outcome_try_catch, !filter_app, Htr, Hout.
  destruct (outcome body') as [a|e]; [reflexivity|].
  specialize (Hh e). injection Hh as Hh1 Hh2. now rewrite Hh1, Hh2.
Qed.

Lemma trace_not_awaited {A} (m : M A) :
  trace (not_awaited m) = synchronous_part (trace m).
Proof. reflexivity. Qed.

Lemma trace_settles_later {A} (m : M A) :
  trace (settles_later m)
  = after_first_request (trace m)
    ++ match outcome m with
       | Ok _ => []
       | Throw e => [EvUnhandledRejection e]
       end.
Proof. reflexivity. Qed.

Lemma quiet_app (tr tr' : list Event) : quiet (tr ++ tr') = quiet tr ++ quiet tr'.
Proof. apply filter_app. Qed.

Lemma observable_not_awaited {A} (m m' : M A) :
  observable m = observable m' ->
  observable (not_awaited m) = observable (not_awaited m').
Proof.
  unfold observable. intros [= Htr Hout].
  now rewrite !trace_not_awaited, !quiet_synchronous_part, Htr.
Qed.

Lemma observable_settles_later {A} (m m' : M A) :
  observable m = observable m' ->
  observable (settles_later m) = observable (settles_later m').
Proof.
  unfold observable. intros [= Htr Hout].
  now rewrite !trace_settles_later, !quiet_app, !quiet_after_first_request,
    Htr, Hout.
Qed.

Lemma observable_Promise_all {A B} (f g : B -> M A) (l : list B) :
  (forall x, observable (f x) = observable (g x)) ->
  observable (Promise_all (map f l)) = observable (Promise_all (map g l)).
Proof.
  intros Hfg.
  assert (forall x, quiet (trace (f x)) = quiet (trace (g x))
                    /\ outcome (f x) = outcome (g x)) as H.
  { intros x. specialize (Hfg x). unfold observable in Hfg.
    now injection Hfg. }
  assert (forall h : B -> M A,
             trace (Promise_all (map h l))
             = concat (map (fun x => synchronous_part (trace (h x))) l)
               ++ concat (map (fun x => after_first_request (trace (h x))) l))
    as Htrace by (intros h; unfold Promise_all, trace at 1; cbn [fst];
                  now rewrite !map_map).
  assert (forall h : B -> M A,
             outcome (Promise_all (map h l))
             = match first_rejection (map h l) with
               | Some e => Throw e
               | None => Ok tt
               end) as Hout by reflexivity.
  unfold observable. rewrite !Htrace, !Hout, !quiet_app.
  clear Htrace Hout. f_equal; [f_equal|].
  - induction l as [|x r IH]; [reflexivity|]. simpl.
    now rewrite !quiet_app, IH, !quiet_synchronous_part, (proj1 (H x)).
  - induction l as [|x r IH]; [reflexivity|]. simpl.
    now rewrite !quiet_app, IH, !quiet_after_first_request, (proj1 (H x)).
  - induction l as [|x r IH]; simpl; [reflexivity|].
    pose proof (proj2 (H x)) as Hx.
    destruct (f x) as [tf rf], (g x) as [tg rg]. simpl in Hx. subst rg.
    destruct rf; [exact IH | reflexivity].
Qed.

Lemma observable_array_map {A B} (f g : A -> M B) (l : list A) :
  (forall x, observable (f x) = observable (g x)) ->
  observable (array_map f l) = observable (array_map g l).
Proof.
  intros Hfg. induction l as [|x r IH]; simpl; [reflexivity|].
  apply observable_bind; [apply Hfg|]. intros y.
  apply observable_bind; [exact IH | reflexivity].
Qed.

Lemma observable_debug_log (env : Env) (what : string) (r : Response) :
  observable (debug_log env what r) = observable (ret tt).
Proof. unfold debug_log. now destruct (DEBUG env). Qed.

Lemma observable_debug_log_toggle (d : option string) (env : Env)
  (what : string) (r : Response) :
  observable (debug_log (with_SLS_DEBUG d env) what r)
  = observable (debug_log env what r).
Proof. now rewrite !observable_debug_log. Qed.

End MonadFacts.

(** ** The debug toggle *)

Section DebugToggle.

Variable d : option string.
Variable env : Env.

Lemma secretChanged_toggle (name : string) (newSecret : value) :
  observable (secretChanged (with_SLS_DEBUG d env) name newSecret)
  = observable (secretChanged env name newSecret).
Proof.
  unfold secretChanged. apply observable_try_catch; [|reflexivity].
  apply observable_bind; [reflexivity|]. intros response.
  apply observable_bind; [apply observable_debug_log_toggle|]. intros _.
  reflexivity.
Qed.

Lemma pushSecret_toggle (name : string) (secret : value) :
  observable (pushSecret (with_SLS_DEBUG d env) name secret)
  = observable (pushSecret env name secret).
Proof.
  unfold pushSecret. apply observable_bind; [reflexivity|]. intros response.
  apply observable_debug_log_toggle.
Qed.

Lemma deployEntry_toggle (prefix : string) (entry : string * value) :
  observable (deployEntry (with_SLS_DEBUG d env) prefix entry)
  = observable (deployEntry env prefix entry).
Proof.
  destruct entry as [name secret]. unfold deployEntry.
  apply observable_bind; [apply secretChanged_toggle|]. intros [|]; [|reflexivity].
  apply observable_bind; [reflexivity|]. intros _.
  apply observable_bind; [apply pushSecret_toggle | reflexivity].
Qed.

Lemma deploySecrets_toggle :
  observable (deploySecrets (with_SLS_DEBUG d env)) = observable (deploySecrets env).
Proof.
  unfold deploySecrets.
  apply observable_bind; [reflexivity|]. intros secrets.
  apply observable_bind; [reflexivity|]. intros entries.
  apply observable_Promise_all. apply deployEntry_toggle.
Qed.

Lemma getPreviousSSMPath_toggle :
  observable (getPreviousSSMPath (with_SLS_DEBUG d env))
  = observable (getPreviousSSMPath env).
Proof.
  unfold getPreviousSSMPath.
  apply observable_bind; [reflexivity|]. intros response.
  apply observable_bind; [reflexivity|]. intros previous.
  apply observable_bind; [apply observable_debug_log_toggle | reflexivity].
Qed.

Lemma removeSecrets_toggle (names : list string) :
  observable (removeSecrets (with_SLS_DEBUG d env) names)
  = observable (removeSecrets env names).
Proof.
  unfold removeSecrets. apply observable_bind; [reflexivity|]. intros response.
  apply observable_debug_log_toggle.
Qed.

Lemma removeDeployedSecrets_toggle :
  observable (removeDeployedSecrets (with_SLS_DEBUG d env))
  = observable (removeDeployedSecrets env).
Proof.
  unfold removeDeployedSecrets.
  apply observable_bind; [apply getPreviousSSMPath_toggle|].
  intros [previous|]; [|reflexivity].
  destruct (negb (truthy previous)); [reflexivity|].
  apply observable_bind; [reflexivity|]. intros response.
  apply observable_bind; [reflexivity|]. intros names.
  apply observable_bind; [apply observable_debug_log_toggle|]. intros _.
  apply observable_bind;
    [apply observable_not_awaited; apply removeSecrets_toggle|]. intros _.
  apply observable_bind; [reflexivity|]. intros _.
  apply observable_settles_later. apply removeSecrets_toggle.
Qed.

Lemma pullDeployedSecrets_toggle :
  observable (pullDeployedSecrets (with_SLS_DEBUG d env))
  = observable (pullDeployedSecrets env).
Proof.
  unfold pullDeployedSecrets.
  apply observable_bind; [reflexivity|]. intros filePath.
  apply observable_bind; [|reflexivity].
  unfold pullSecrets. apply observable_bind; [reflexivity|]. intros response.
  apply observable_bind; [apply observable_debug_log_toggle | reflexivity].
Qed.

End DebugToggle.

(** X6. [SLS_DEBUG] changes log lines and nothing else: under any value of
    it each operation sends the same requests, makes the same file accesses
    and decoder calls in the same order, and ends the same way. *)
Theorem SLS_DEBUG_only_adds_log_lines (d : option string) (env : Env) :
  observable (deploySecrets (with_SLS_DEBUG d env)) = observable (deploySecrets env)
  /\ observable (removeDeployedSecrets (with_SLS_DEBUG d env))
     = observable (removeDeployedSecrets env)
  /\ observable (pullDeployedSecrets (with_SLS_DEBUG d env))
     = observable (pullDeployedSecrets env).
Proof.
  split; [apply deploySecrets_toggle|].
  split; [apply removeDeployedSecrets_toggle | apply pullDeployedSecrets_toggle].
Qed.

(** With the toggle on, the response of every request is logged. *)
Example deploySecrets_debug_logs_responses :
  length (filter is_log (trace (deploySecrets (with_SLS_DEBUG (Some "*") Fixture.env))))
  = 3 + length (filter is_log (trace (deploySecrets Fixture.env))).
Proof. reflexivity. Qed.

(** ** More on the diff and the put *)

(** X7. [secretChanged] never rejects.  A response without a parameter and a
    remote value that the decoder refuses both count as a change, like a
    failed fetch. *)
Theorem secretChanged_swallows_every_error
  (env : Env) (name : string) (newSecret : value) :
  (exists changed, outcome (secretChanged env name newSecret) = Ok changed)
  /\ (forall response,
         aws_request env (GetParameter name true) = Ok response ->
         (forall p, response <> GetParameterResult (Some p)) ->
         outcome (secretChanged env name newSecret) = Ok true)
  /\ (forall p e,
         aws_request env (GetParameter name true)
           = Ok (GetParameterResult (Some p)) ->
         yaml_load env (Value p) = Throw e ->
         outcome (secretChanged env name newSecret) = Ok true).
Proof.
  rewrite secretChanged_outcome. split; [eauto|]. split.
  - intros response -> Hshape.
    destruct response as [[p|]| | | |]; try reflexivity.
    now destruct (Hshape p).
  - intros p e -> ->. reflexivity.
Qed.

Lemma secretChanged_swallows_every_error_witness :
  yaml_load Scenario.env_bad_yaml "pw1" = Throw (YAMLException "bad indentation")
  /\ outcome (secretChanged Scenario.env_bad_yaml "/svc-dev/secrets/db"
                (VString "pw1")) = Ok true.
Proof.
  split; [reflexivity|].
  exact (proj2 (proj2 (secretChanged_swallows_every_error
                         Scenario.env_bad_yaml "/svc-dev/secrets/db"
                         (VString "pw1")))
               (mkSsmParameter "/svc-dev/secrets/db" "pw1")
               (YAMLException "bad indentation") eq_refl eq_refl).
Defined.

(** X8. [pushSecret] sends one put, of type SecureString and overwriting.
    The value sent is a string exactly when the secret is a string, an object
    or an array: any other scalar (a number, a boolean, null) is sent as it
    is, not as text.  The put's rejection is the rejection of [pushSecret]. *)
Theorem pushSecret_sends_one_put (env : Env) (name : string) (secret : value) :
  exists sent,
    requests (trace (pushSecret env name secret))
    = [PutParameter name sent "SecureString" "alias/aws/ssm" true]
    /\ is_string sent = (is_string secret || isObject secret)
    /\ (isObject secret = true -> sent = VString (JSON_stringify env secret))
    /\ (isObject secret = false -> sent = secret)
    /\ (forall e,
           outcome (pushSecret env name secret) = Throw e
           <-> aws_request env
                 (PutParameter name sent "SecureString" "alias/aws/ssm" true)
               = Throw e).
Proof.
  exists (stored_value env secret).
  split; [apply pushSecret_requests|].
  split; [unfold stored_value; now destruct secret|].
  split; [unfold stored_value; now intros ->|].
  split; [unfold stored_value; now intros ->|].
  intros e. rewrite pushSecret_outcome.
  destruct (aws_request env _); split; congruence.
Qed.

Lemma pushSecret_sends_one_put_witness :
  isObject (VNumber (double 30)) = false
  /\ requests (trace (pushSecret Fixture.env "/svc-dev/secrets/ttl"
                        (VNumber (double 30))))
     = [PutParameter "/svc-dev/secrets/ttl" (VNumber (double 30))
          "SecureString" "alias/aws/ssm" true].
Proof.
  split; [reflexivity|].
  destruct (pushSecret_sends_one_put Fixture.env "/svc-dev/secrets/ttl"
              (VNumber (double 30))) as [sent [Hreq [_ [_ [Hscalar _]]]]].
  rewrite Hreq, (Hscalar eq_refl). reflexivity.
Defined.

(** ** More on the secrets file *)

(** X9. Once the file exists, [parseSecretsFile] reads it and decodes what it
    read: a read error is thrown on before the decoder is called, a decoder
    error is thrown on as it is, and an object root is returned untouched. *)
Theorem parseSecretsFile_read_then_decode
  (env : Env) (o : Options) (filePath : string) :
  options env = Some o -> file o = Some filePath -> filePath <> "" ->
  existsSync env filePath = true ->
  (forall e, readFileSync env filePath = Throw e ->
             parseSecretsFile env
             = ([EvExistsSync filePath; EvReadFileSync filePath], Throw e))
  /\ (forall content e,
         readFileSync env filePath = Ok content ->
         yaml_load env content = Throw e ->
         parseSecretsFile env
         = ([EvExistsSync filePath; EvReadFileSync filePath; EvYamlLoad content],
            Throw e))
  /\ (forall content secrets,
         readFileSync env filePath = Ok content ->
         yaml_load env content = Ok secrets ->
         isObject secrets = true ->
         parseSecretsFile env
         = ([EvExistsSync filePath; EvReadFileSync filePath; EvYamlLoad content],
            Ok secrets)).
Proof.
  intros Ho Hf Hne Hex.
  unfold parseSecretsFile.
  rewrite (configured_file_set env o filePath Ho Hf Hne).
  run_plugin. rewrite Hex. simpl. split; [|split].
  - intros e ->. reflexivity.
  - intros content e -> . simpl. intros ->. reflexivity.
  - intros content secrets ->. simpl. intros ->. simpl. intros ->. reflexivity.
Qed.

Lemma parseSecretsFile_read_then_decode_witness :
  existsSync Scenario.env_bad_yaml "secrets.yml" = true
  /\ parseSecretsFile Scenario.env_bad_yaml
     = ([EvExistsSync "secrets.yml"; EvReadFileSync "secrets.yml";
         EvYamlLoad Fixture.document_text],
        Throw (YAMLException "bad indentation")).
Proof.
  split; [reflexivity|].
  exact (proj1 (proj2 (parseSecretsFile_read_then_decode
                         Scenario.env_bad_yaml
                         (mkOptions (Some "secrets.yml") None) "secrets.yml"
                         eq_refl eq_refl ltac:(discriminate) eq_refl))
               Fixture.document_text (YAMLException "bad indentation")
               eq_refl eq_refl).
Defined.

(** ** More on deploy *)

(** X10. Deploy fails fast: when the secrets file cannot be used, whatever the
    reason, deploy is rejected for that reason and has sent nothing to the
    store. *)
Theorem deploySecrets_stops_when_file_unusable (env : Env) (e : Error) :
  outcome (parseSecretsFile env) = Throw e ->
  deploySecrets env = (trace (parseSecretsFile env), Throw e)
  /\ requests (trace (deploySecrets env)) = [].
Proof.
  intros Hparse.
  assert (deploySecrets env = (trace (parseSecretsFile env), Throw e)) as H.
  { unfold deploySecrets. destruct (parseSecretsFile env) as [tr [v|e']];
      simpl in *; [discriminate | congruence]. }
  split; [exact H|]. rewrite H. apply parseSecretsFile_requests.
Qed.

Lemma deploySecrets_stops_when_file_unusable_witness :
  outcome (parseSecretsFile Scenario.env_bad_yaml)
  = Throw (YAMLException "bad indentation")
  /\ requests (trace (deploySecrets Scenario.env_bad_yaml)) = [].
Proof.
  split; [reflexivity|].
  exact (proj2 (deploySecrets_stops_when_file_unusable Scenario.env_bad_yaml
                  (YAMLException "bad indentation") eq_refl)).
Defined.

Section DeployFacts.

Variable env : Env.
Variable prefix : string.

Lemma deployEntry_outcome_changed (entry : string * value) :
  outcome (deployEntry env prefix entry)
  = if entry_changed env prefix entry then
      match aws_request env (put_request env prefix entry) with
      | Ok _ => Ok tt
      | Throw e => Throw e
      end
    else Ok tt.
Proof.
  destruct entry as [name secret].
  rewrite deployEntry_outcome.
  pose proof (entry_changed_outcome env prefix (name, secret)) as Hchanged.
  simpl in Hchanged. rewrite Hchanged.
  destruct (entry_changed env prefix (name, secret)); [|reflexivity].
  apply pushSecret_outcome.
Qed.



Lemma batch_resolves_iff (entries : list (string * value)) :
  outcome (Promise_all (map (deployEntry env prefix) entries)) = Ok tt
  <-> forall entry,
        In entry entries -> entry_changed env prefix entry = true ->
        exists response,
          aws_request env (put_request env prefix entry) = Ok response.
Proof.
  unfold Promise_all, outcome at 1. simpl.
  destruct (first_rejection (map (deployEntry env prefix) entries)) as [e|] eqn:E.
  - split; [discriminate|]. intros H.
    destruct (first_rejection_In _ _ E) as [task [Hin Htask]].
    apply in_map_iff in Hin as [entry [<- Hin]].
    rewrite deployEntry_outcome_changed in Htask.
    destruct (entry_changed env prefix entry) eqn:Hc; [|discriminate].
    destruct (H entry Hin Hc) as [response Hput]. rewrite Hput in Htask.
    discriminate.
  - split; [|reflexivity]. intros _ entry Hin Hc.
    rewrite first_rejection_None in E.
    destruct (E (deployEntry env prefix entry)) as [[] Hok];
      [now apply in_map|].
    rewrite deployEntry_outcome_changed, Hc in Hok.
    destruct (aws_request env (put_request env prefix entry)) as [response|e];
      [eauto | discriminate].
Qed.

End DeployFacts.



(** X12. Once the secrets file is read, deploy resolves exactly when the put
    of every changed entry was accepted; nothing else can reject it. *)
Theorem deploySecrets_resolves_iff_puts_accepted
  (env : Env) (secrets : value) (entries : list (string * value)) :
  outcome (parseSecretsFile env) = Ok secrets ->
  Object_entries secrets = Some entries ->
  let prefix := resolveSsmPath env in
  outcome (deploySecrets env) = Ok tt
  <-> forall entry,
        In entry entries -> entry_changed env prefix entry = true ->
        exists response,
          aws_request env (put_request env prefix entry) = Ok response.
Proof.
  intros Hparse Hentries prefix. subst prefix.
  rewrite (deploySecrets_outcome env secrets entries Hparse Hentries).
  apply batch_resolves_iff.
Qed.

Lemma deploySecrets_resolves_iff_puts_accepted_witness :
  outcome (parseSecretsFile Fixture.env_read_only) = Ok Fixture.document
  /\ outcome (deploySecrets Fixture.env_read_only) <> Ok tt.
Proof.
  split; [reflexivity|].
  intros Hresolved.
  destruct (proj1 (deploySecrets_resolves_iff_puts_accepted
                     Fixture.env_read_only Fixture.document
                     [("db", VString "pw1"); ("api", Fixture.api 30)]
                     eq_refl eq_refl)
                  Hresolved ("api", Fixture.api 30)
                  (or_intror (or_introl eq_refl)) eq_refl)
    as [response Hput].
  discriminate Hput.
Defined.

(** X13. On a store that is in step with the secrets file (every entry is
    there and decodes to a value equal to the local one) deploy only reads:
    one get per entry, no put, and it resolves. *)
Theorem deploySecrets_in_sync_writes_nothing
  (env : Env) (secrets : value) (entries : list (string * value)) :
  outcome (parseSecretsFile env) = Ok secrets ->
  Object_entries secrets = Some entries ->
  (forall name secret,
      In (name, secret) entries ->
      exists p currentSecret,
        aws_request env (GetParameter (resolveSsmPath env ++ name) true)
          = Ok (GetParameterResult (Some p))
        /\ yaml_load env (Value p) = Ok currentSecret
        /\ isDeepStrictEqual secret currentSecret = true) ->
  requests (trace (deploySecrets env))
  = map (get_request (resolveSsmPath env)) entries
  /\ outcome (deploySecrets env) = Ok tt.
Proof.
  intros Hparse Hentries Hsync.
  assert (forall entry, In entry entries ->
                        entry_changed env (resolveSsmPath env) entry = false)
    as Hunchanged.
  { intros [name secret] Hin. unfold entry_changed. simpl.
    rewrite secretChanged_outcome.
    destruct (Hsync name secret Hin) as [p [v [-> [-> ->]]]]. reflexivity. }
  split.
  - rewrite deploySecrets_requests, Hparse, Hentries.
    assert (filter (entry_changed env (resolveSsmPath env)) entries = []) as ->.
    { clear Hparse Hentries Hsync.
      induction entries as [|entry rest IH]; [reflexivity|].
      simpl. rewrite (Hunchanged entry (or_introl eq_refl)).
      apply IH. intros e He. apply Hunchanged. now right. }
    apply app_nil_r.
  - rewrite (deploySecrets_outcome env secrets entries Hparse Hentries).
    apply batch_resolves_iff. intros entry Hin Hc.
    rewrite (Hunchanged entry Hin) in Hc. discriminate.
Qed.

Lemma deploySecrets_in_sync_writes_nothing_witness :
  outcome (parseSecretsFile Scenario.env_in_sync) = Ok Fixture.document
  /\ requests (trace (deploySecrets Scenario.env_in_sync))
     = [GetParameter "/svc-dev/secrets/db" true;
        GetParameter "/svc-dev/secrets/api" true].
Proof.
  split; [reflexivity|].
  refine (proj1 (deploySecrets_in_sync_writes_nothing
                   Scenario.env_in_sync Fixture.document
                   [("db", VString "pw1"); ("api", Fixture.api 30)]
                   eq_refl eq_refl _)).
  intros name secret [[= <- <-] | [[= <- <-] | []]].
  - exists (mkSsmParameter "/svc-dev/secrets/db" "pw1"), (VString "pw1").
    repeat split.
  - exists (mkSsmParameter "/svc-dev/secrets/api" (Fixture.api_json "30")),
      (Fixture.api 30).
    repeat split.
Defined.

(** ** What the operations never do *)

Section Never.

Variable env : Env.

Let allowed (f : Event -> bool) (ev : Event) : Prop := f ev = true.

Lemma secretChanged_events (name : string) (newSecret : value) :
  Forall (allowed deploy_event) (trace (secretChanged env name newSecret)).
Proof.
  unfold secretChanged.
  apply Forall_try_catch; [|intros e; constructor].
  apply Forall_bind; [repeat constructor|]. intros response.
  apply Forall_bind; [now apply Forall_debug_log|]. intros _.
  apply Forall_bind.
  - destruct response as [[p|]| | | |]; constructor.
  - intros v. apply Forall_bind; [repeat constructor | intros; constructor].
Qed.

Lemma pushSecret_events (name : string) (secret : value) :
  Forall (allowed deploy_event) (trace (pushSecret env name secret)).
Proof.
  unfold pushSecret.
  apply Forall_bind; [repeat constructor|]. intros response.
  now apply Forall_debug_log.
Qed.

Lemma parseSecretsFile_events :
  Forall (allowed deploy_event) (trace (parseSecretsFile env)).
Proof.
  unfold parseSecretsFile.
  apply Forall_bind; [rewrite configured_file_trace; constructor|].
  intros filePath. apply Forall_bind; [repeat constructor|]. intros _.
  destruct (negb (existsSync env filePath)).
  - repeat constructor.
  - apply Forall_bind; [repeat constructor|]. intros _.
    apply Forall_bind; [destruct (readFileSync env filePath); constructor|].
    intros content. apply Forall_bind; [repeat constructor|]. intros secrets.
    destruct (isObject secrets); constructor.
Qed.

Lemma deployEntry_events (prefix : string) (entry : string * value) :
  Forall (allowed deploy_event) (trace (deployEntry env prefix entry)).
Proof.
  destruct entry as [name secret]. unfold deployEntry.
  apply Forall_bind; [apply secretChanged_events|]. intros [|].
  - apply Forall_bind; [repeat constructor|]. intros _.
    apply Forall_bind; [apply pushSecret_events | intros; repeat constructor].
  - repeat constructor.
Qed.

End Never.

(** X14. Deploy never writes the local file, never leaves a rejected promise
    unhandled, and asks the store for nothing but gets and puts: it deletes
    nothing, lists nothing and looks no stack up. *)
Theorem deploySecrets_only_reads_file_and_gets_and_puts (env : Env) :
  forallb deploy_event (trace (deploySecrets env)) = true.
Proof.
  apply forallb_forall. apply Forall_forall.
  unfold deploySecrets.
  apply Forall_bind; [apply parseSecretsFile_events|]. intros secrets.
  apply Forall_bind; [destruct (Object_entries secrets); constructor|].
  intros entries. apply Forall_Promise_all. intros entry.
  apply deployEntry_events.
Qed.

(** X15. Remove never touches the local file or the decoders and never gets
    or puts a parameter; pull never changes the store, calls no YAML decoder
    and leaves no rejection unhandled. *)
Theorem remove_and_pull_stay_in_their_lane (env : Env) :
  forallb remove_event (trace (removeDeployedSecrets env)) = true
  /\ forallb pull_event (trace (pullDeployedSecrets env)) = true.
Proof.
  split.
  - unfold removeDeployedSecrets, getPreviousSSMPath, removeSecrets, not_awaited.
    run_plugin.
    destruct (aws_request env (DescribeStacks (stackName env)))
      as [[ | | | |stacks]|e]; simpl; try reflexivity.
    destruct (DEBUG env); simpl;
      (destruct (previousSSMPath_of stacks) as [previous|]; simpl;
       [|reflexivity]);
      (destruct (truthy previous); simpl; [|reflexivity]);
      (destruct (aws_request env
                   (GetParametersByPath (previous ++ "/secrets") true None))
        as [[ |  |listed | | ]|e]; simpl; try reflexivity);
      destruct (aws_request env (DeleteParameters (map Name listed)));
      reflexivity.
  - unfold pullDeployedSecrets.
    destruct (configured_file env) as [tr [filePath|e]] eqn:Hc;
      pose proof (configured_file_trace env) as Htr; rewrite Hc in Htr;
      simpl in Htr; subst tr; [|reflexivity].
    unfold pullSecrets. run_plugin.
    destruct (aws_request env _) as [resp|e]; simpl; [|reflexivity].
    destruct (DEBUG env); simpl;
      (destruct resp as [ | |parameters| | ]; simpl; try reflexivity);
      (destruct (array_map_pullEntry env (resolveSsmPath env) parameters)
        as [[entries|e] ->]; simpl; [|reflexivity]);
      (destruct (yaml_dump env _) as [content|e]; simpl; [|reflexivity]);
      destruct (writeFileSync env filePath content); reflexivity.
Qed.

(** ** One path per entry *)

Section DistinctPaths.

Lemma index_key_injective (i j : nat) : index_key i = index_key j -> i = j.
Proof.
  unfold index_key. intros H.
  apply (f_equal NilEmpty.uint_of_string) in H.
  rewrite !NilEmpty.usu in H. injection H as H.
  apply (f_equal Nat.of_uint) in H. now rewrite !Unsigned.of_to in H.
Qed.

Lemma keys_indexed {A : Type} (l : list A) :
  forall i k, In k (map fst (indexed i l)) -> exists j, i <= j /\ k = index_key j.
Proof.
  induction l as [|x r IH]; intros i k; simpl; [contradiction|].
  intros [<- | H]; [exists i; auto|].
  destruct (IH (S i) k H) as [j [Hle ->]]. exists j. split; [lia | reflexivity].
Qed.

Lemma NoDup_keys_indexed {A : Type} (l : list A) :
  forall i, NoDup (map fst (indexed i l)).
Proof.
  induction l as [|x r IH]; intros i; simpl; constructor; [|apply IH].
  intros H. destruct (keys_indexed r (S i) _ H) as [j [Hle Heq]].
  apply index_key_injective in Heq. lia.
Qed.

Lemma length_indexed {A : Type} (l : list A) :
  forall i, length (indexed i l) = length l.
Proof. induction l as [|x r IH]; intros i; simpl; [reflexivity | now rewrite IH]. Qed.

Lemma append_injective (prefix a b : string) :
  (prefix ++ a)%string = (prefix ++ b)%string -> a = b.
Proof.
  induction prefix as [|c prefix IH]; simpl; [trivial|].
  intros [= H]. now apply IH.
Qed.

End DistinctPaths.

(** X16. The tasks of one deploy work on pairwise different paths: the entries
    of the secrets file have pairwise different names (the keys of an object,
    the indices of a list), and different names give different paths under
    the same prefix. *)
Theorem deploySecrets_entries_have_distinct_paths
  (env : Env) (secrets : value) (entries : list (string * value)) :
  wf_value secrets ->
  outcome (parseSecretsFile env) = Ok secrets ->
  Object_entries secrets = Some entries ->
  NoDup (map (fun entry => (resolveSsmPath env ++ fst entry)%string) entries).
Proof.
  intros Hwf Hparse Hentries.
  assert (NoDup (map fst entries)) as Hnames.
  { pose proof (parseSecretsFile_isObject env secrets Hparse) as Hobj.
    destruct secrets as [ | | | | |items|props]; try discriminate;
      injection Hentries as <-.
    - apply NoDup_keys_indexed.
    - now inversion Hwf. }
  rewrite <- (map_map fst (fun name => (resolveSsmPath env ++ name)%string)).
  apply Injective_map_NoDup; [|exact Hnames].
  intros a b. apply append_injective.
Qed.

Lemma deploySecrets_entries_have_distinct_paths_witness :
  outcome (parseSecretsFile Fixture.env_list_file)
  = Ok (VArray [VString "a"; VString "b"])
  /\ NoDup ["/svc-dev/secrets/0"; "/svc-dev/secrets/1"].
Proof.
  split; [reflexivity|].
  exact (deploySecrets_entries_have_distinct_paths
           Fixture.env_list_file (VArray [VString "a"; VString "b"])
           [("0", VString "a"); ("1", VString "b")]
           (wf_array _ (Forall_cons _ (wf_string "a")
                          (Forall_cons _ (wf_string "b") (Forall_nil _))))
           eq_refl eq_refl).
Defined.

(** ** More on remove *)

(** X17. The recorded prefix is looked for in the first stack only, among its
    outputs, under the key "SsmBasePath", and the first output with that key
    is the one that counts; without stack, outputs or such a key there is no
    recorded prefix. *)
Theorem previousSSMPath_of_first_stack_first_output (stacks : list Stack) :
  (forall previous,
      previousSSMPath_of stacks = Some previous <->
      exists stack others outputs before o after,
        stacks = stack :: others
        /\ Outputs stack = Some outputs
        /\ outputs = before ++ o :: after
        /\ (forall o', In o' before -> OutputKey o' <> "SsmBasePath")
        /\ OutputKey o = "SsmBasePath"
        /\ OutputValue o = previous)
  /\ (previousSSMPath_of stacks = None <->
      match stacks with
      | [] => True
      | stack :: _ =>
          match Outputs stack with
          | None => True
          | Some outputs =>
              forall o, In o outputs -> OutputKey o <> "SsmBasePath"
          end
      end).
Proof.
  assert (forall outputs,
             match find (fun o => String.eqb (OutputKey o) "SsmBasePath") outputs with
             | Some o =>
                 exists before after,
                   outputs = before ++ o :: after
                   /\ (forall o', In o' before -> OutputKey o' <> "SsmBasePath")
                   /\ OutputKey o = "SsmBasePath"
             | None => forall o, In o outputs -> OutputKey o <> "SsmBasePath"
             end) as Hfind.
  { induction outputs as [|o rest IH]; simpl; [intros ? []|].
    destruct (String.eqb (OutputKey o) "SsmBasePath") eqn:E.
    - apply String.eqb_eq in E. exists [], rest. simpl. intuition.
    - apply String.eqb_neq in E.
      destruct (find _ rest) as [o1|].
      + destruct IH as [before [after [-> Hk]]].
        exists (o :: before), after.
        split; [reflexivity|]. split; [|exact (proj2 Hk)].
        intros o' [<- | Hin]; [exact E | now apply (proj1 Hk)].
      + intros o' [<- | Hin]; auto. }
  assert (forall before (o : Output) after,
             (forall o', In o' before -> OutputKey o' <> "SsmBasePath") ->
             OutputKey o = "SsmBasePath" ->
             find (fun o => String.eqb (OutputKey o) "SsmBasePath")
                  (before ++ o :: after) = Some o) as Hfound.
  { induction before as [|o' before IH]; intros o after Hb Hk; simpl.
    - apply String.eqb_eq in Hk. now rewrite Hk.
    - assert (OutputKey o' <> "SsmBasePath") as Hne by (apply Hb; now left).
      apply String.eqb_neq in Hne. rewrite Hne. apply IH; [|assumption].
      intros o1 H1. apply Hb. now right. }
  unfold previousSSMPath_of. split.
  - intros previous. split.
    + destruct stacks as [|stack others]; [discriminate|].
      destruct (Outputs stack) as [outputs|] eqn:Hout; [|discriminate].
      specialize (Hfind outputs).
      destruct (find _ outputs) as [o|]; [|discriminate].
      intros [= <-]. destruct Hfind as [before [after [-> [Hb Hk]]]].
      exists stack, others, (before ++ o :: after), before, o, after. auto 10.
    + intros [stack [others [outputs [before [o [after
               [-> [-> [-> [Hb [Hk <-]]]]]]]]]]].
      now rewrite (Hfound before o after Hb Hk).
  - destruct stacks as [|stack others]; [tauto|].
    destruct (Outputs stack) as [outputs|]; [|tauto].
    specialize (Hfind outputs).
    destruct (find _ outputs) as [o|] eqn:E.
    + split; [discriminate|]. intros Hnone.
      destruct Hfind as [before [after [-> [_ Hk]]]].
      exfalso. apply (Hnone o); [apply in_elt | exact Hk].
    + tauto.
Qed.

(** X18. Without a recorded prefix (no such stack output, or an empty one)
    remove stops after the stack lookup: that one request, nothing listed,
    nothing deleted, nothing logged as removed, and it resolves. *)
Theorem removeDeployedSecrets_without_prefix_only_looks_up
  (env : Env) (stacks : list Stack) :
  aws_request env (DescribeStacks (stackName env))
    = Ok (DescribeStacksResult stacks) ->
  previousSSMPath_of stacks = None \/ previousSSMPath_of stacks = Some "" ->
  observable (removeDeployedSecrets env)
  = ([EvRequest (DescribeStacks (stackName env))], Ok tt).
Proof.
  intros Hstack Hnone.
  unfold removeDeployedSecrets, getPreviousSSMPath, observable.
  run_plugin. rewrite Hstack. simpl.
  destruct Hnone as [-> | ->]; destruct (DEBUG env); reflexivity.
Qed.

Lemma removeDeployedSecrets_without_prefix_only_looks_up_witness :
  previousSSMPath_of
    [ mkStack (Some [ mkOutput "ServiceEndpoint" "https://example" ]) ] = None
  /\ observable (removeDeployedSecrets Scenario.env_without_output)
     = ([EvRequest (DescribeStacks "svc-dev")], Ok tt).
Proof.
  split; [reflexivity|].
  exact (removeDeployedSecrets_without_prefix_only_looks_up
           Scenario.env_without_output
           [ mkStack (Some [ mkOutput "ServiceEndpoint" "https://example" ]) ]
           eq_refl (or_introl eq_refl)).
Defined.

(** X19. A failure before the deletion does propagate out of remove: when the
    stack lookup is rejected nothing else is sent, and when the listing is
    rejected nothing is deleted; remove is rejected with the same error. *)
Theorem removeDeployedSecrets_lookup_and_listing_failures_propagate
  (env : Env) (e : Error) :
  (aws_request env (DescribeStacks (stackName env)) = Throw e ->
   removeDeployedSecrets env
   = ([EvRequest (DescribeStacks (stackName env))], Throw e))
  /\ (forall stacks previous,
         aws_request env (DescribeStacks (stackName env))
           = Ok (DescribeStacksResult stacks) ->
         previousSSMPath_of stacks = Some previous -> previous <> "" ->
         aws_request env (GetParametersByPath (previous ++ "/secrets") true None)
           = Throw e ->
         observable (removeDeployedSecrets env)
         = ([EvRequest (DescribeStacks (stackName env));
             EvRequest (GetParametersByPath (previous ++ "/secrets") true None)],
            Throw e)).
Proof.
  split.
  - intros Hstack.
    unfold removeDeployedSecrets, getPreviousSSMPath. run_plugin.
    now rewrite Hstack.
  - intros stacks previous Hstack Hprev Hne Hlist.
    destruct previous as [|c previous]; [congruence|]. simpl in Hlist.
    unfold removeDeployedSecrets, getPreviousSSMPath, observable.
    run_plugin. rewrite Hstack. simpl. rewrite Hprev.
    destruct (DEBUG env); simpl; rewrite Hlist; reflexivity.
Qed.

Lemma removeDeployedSecrets_lookup_and_listing_failures_propagate_witness :
  aws_request Scenario.env_down (DescribeStacks "svc-dev")
  = Throw (ProviderError "ServiceUnavailable")
  /\ removeDeployedSecrets Scenario.env_down
     = ([EvRequest (DescribeStacks "svc-dev")],
        Throw (ProviderError "ServiceUnavailable"))
  /\ outcome (removeDeployedSecrets Scenario.env_no_listing)
     = Throw (ProviderError "AccessDeniedException").
Proof.
  split; [reflexivity|]. split.
  - exact (proj1 (removeDeployedSecrets_lookup_and_listing_failures_propagate
                    Scenario.env_down (ProviderError "ServiceUnavailable"))
                 eq_refl).
  - exact (f_equal snd
             (proj2 (removeDeployedSecrets_lookup_and_listing_failures_propagate
                       Scenario.env_no_listing
                       (ProviderError "AccessDeniedException"))
                    _ "/svc-dev" eq_refl eq_refl ltac:(discriminate) eq_refl)).
Defined.

(** X20. When the store accepts everything, remove sends three requests, in
    this order: the stack lookup, the recursive listing under the recorded
    prefix followed by "/secrets", and one deletion naming every parameter
    listed.  Nothing is left unhandled and the removal is logged. *)
Theorem removeDeployedSecrets_deletes_what_it_listed
  (env : Env) (stacks : list Stack) (previous : string)
  (listed : list SsmParameter) (response : Response) :
  aws_request env (DescribeStacks (stackName env))
    = Ok (DescribeStacksResult stacks) ->
  previousSSMPath_of stacks = Some previous -> previous <> "" ->
  aws_request env (GetParametersByPath (previous ++ "/secrets") true None)
    = Ok (GetParametersByPathResult listed) ->
  aws_request env (DeleteParameters (map Name listed)) = Ok response ->
  observable (removeDeployedSecrets env)
  = ([EvRequest (DescribeStacks (stackName env));
      EvRequest (GetParametersByPath (previous ++ "/secrets") true None);
      EvRequest (DeleteParameters (map Name listed))], Ok tt)
  /\ In (EvLog ("Secrets in " ++ previous ++ " removed.") (Some entity))
        (trace (removeDeployedSecrets env)).
Proof.
  intros Hstack Hprev Hne Hlist Hdelete.
  destruct previous as [|c previous]; [congruence|]. simpl in Hlist.
  unfold removeDeployedSecrets, getPreviousSSMPath, removeSecrets, not_awaited,
    observable.
  run_plugin. rewrite Hstack. simpl. rewrite Hprev.
  destruct (DEBUG env); simpl; rewrite Hlist; simpl; rewrite Hdelete; simpl;
    split; auto 10.
Qed.

Lemma removeDeployedSecrets_deletes_what_it_listed_witness :
  aws_request Scenario.env_deleting
    (DeleteParameters ["/svc-dev/secrets/db"; "/svc-dev/secrets/api"])
  = Ok DeleteParametersResult
  /\ observable (removeDeployedSecrets Scenario.env_deleting)
     = ([EvRequest (DescribeStacks "svc-dev");
         EvRequest (GetParametersByPath "/svc-dev/secrets" true None);
         EvRequest (DeleteParameters
                      ["/svc-dev/secrets/db"; "/svc-dev/secrets/api"])], Ok tt).
Proof.
  split; [reflexivity|].
  exact (proj1 (removeDeployedSecrets_deletes_what_it_listed
                  Scenario.env_deleting _ "/svc-dev"
                  [ mkSsmParameter "/svc-dev/secrets/db" "pw1";
                    mkSsmParameter "/svc-dev/secrets/api" (Fixture.api_json "60") ]
                  DeleteParametersResult
                  eq_refl eq_refl ltac:(discriminate) eq_refl eq_refl)).
Defined.

(** ** More on pull *)

Section PullFacts.

Variable env : Env.
Variable prefix : string.

(** The listed parameter [secret] parsed to the value of [entry], which
    carries its name without the first occurrence of the prefix. *)
Let parsed_as (secret : SsmParameter) (entry : string * value) : Prop :=
  JSON_parse env (Value secret) = Ok (snd entry)
  /\ entry = pulled_entry prefix secret (snd entry).

Lemma array_map_pullEntry_parsed (listed : list SsmParameter)
  (entries : list (string * value)) :
  Forall2 parsed_as listed entries ->
  array_map (pullEntry env prefix) listed = ([], Ok entries).
Proof.
  induction 1 as [|secret [name v] listed entries [Hparse Hentry] _ IH].
  - reflexivity.
  - simpl. rewrite IH. unfold pullEntry. run_plugin.
    simpl in Hparse. rewrite Hparse. simpl. now rewrite Hentry.
Qed.

End PullFacts.

(** X21. When the listing succeeds and every listed value is JSON, pull sends
    that one request and writes the configured file once: the encoding of the
    object that has, for each parameter, its name without the prefix and its
    parsed value.  Pull ends as the write ends. *)
Theorem pullDeployedSecrets_writes_the_listed_entries
  (env : Env) (o : Options) (filePath : string)
  (listed : list SsmParameter) (entries : list (string * value))
  (content : string) :
  options env = Some o -> file o = Some filePath -> filePath <> "" ->
  aws_request env (GetParametersByPath (resolveSsmPath env) true (Some true))
    = Ok (GetParametersByPathResult listed) ->
  Forall2 (fun secret entry =>
             JSON_parse env (Value secret) = Ok (snd entry)
             /\ entry = pulled_entry (resolveSsmPath env) secret (snd entry))
          listed entries ->
  yaml_dump env (Object_fromEntries entries) = Ok content ->
  observable (pullDeployedSecrets env)
  = ([EvRequest (GetParametersByPath (resolveSsmPath env) true (Some true));
      EvWriteFileSync filePath content],
     writeFileSync env filePath content).
Proof.
  intros Ho Hf Hne Hlist Hparsed Hdump.
  unfold pullDeployedSecrets, observable.
  rewrite (configured_file_set env o filePath Ho Hf Hne).
  unfold pullSecrets. run_plugin. rewrite Hlist. simpl.
  destruct (DEBUG env); simpl;
    rewrite (array_map_pullEntry_parsed env _ listed entries Hparsed); simpl;
    rewrite Hdump; simpl;
    destruct (writeFileSync env filePath content); reflexivity.
Qed.

Lemma pullDeployedSecrets_writes_the_listed_entries_witness :
  yaml_dump Fixture.env_json Fixture.document = Ok Fixture.document_text
  /\ observable (pullDeployedSecrets Fixture.env_json)
     = ([EvRequest (GetParametersByPath "/svc-dev/secrets/" true (Some true));
         EvWriteFileSync "secrets.yml" Fixture.document_text], Ok tt).
Proof.
  split; [reflexivity|].
  refine (pullDeployedSecrets_writes_the_listed_entries
            Fixture.env_json (mkOptions (Some "secrets.yml") None) "secrets.yml"
            [ mkSsmParameter "/svc-dev/secrets/db" (Fixture.quoted "pw1");
              mkSsmParameter "/svc-dev/secrets/api" (Fixture.api_json "30") ]
            [("db", VString "pw1"); ("api", Fixture.api 30)]
            Fixture.document_text
            eq_refl eq_refl ltac:(discriminate) eq_refl _ eq_refl).
  repeat constructor.
Defined.

(** X22. Pull writes nothing unless everything before the write succeeded: a
    rejected listing and a failed encoding both reject pull with their error
    after the one listing request, the local file untouched. *)
Theorem pullDeployedSecrets_failures_leave_file_untouched
  (env : Env) (o : Options) (filePath : string) (e : Error) :
  options env = Some o -> file o = Some filePath -> filePath <> "" ->
  let listing := GetParametersByPath (resolveSsmPath env) true (Some true) in
  (aws_request env listing = Throw e ->
   pullDeployedSecrets env = ([EvRequest listing], Throw e))
  /\ (forall listed entries,
         aws_request env listing = Ok (GetParametersByPathResult listed) ->
         Forall2 (fun secret entry =>
                    JSON_parse env (Value secret) = Ok (snd entry)
                    /\ entry = pulled_entry (resolveSsmPath env) secret (snd entry))
                 listed entries ->
         yaml_dump env (Object_fromEntries entries) = Throw e ->
         observable (pullDeployedSecrets env) = ([EvRequest listing], Throw e)).
Proof.
  intros Ho Hf Hne listing. subst listing. split.
  - intros Hlist. unfold pullDeployedSecrets.
    rewrite (configured_file_set env o filePath Ho Hf Hne).
    unfold pullSecrets. run_plugin. now rewrite Hlist.
  - intros listed entries Hlist Hparsed Hdump.
    unfold pullDeployedSecrets, observable.
    rewrite (configured_file_set env o filePath Ho Hf Hne).
    unfold pullSecrets. run_plugin. rewrite Hlist. simpl.
    destruct (DEBUG env); simpl;
      rewrite (array_map_pullEntry_parsed env _ listed entries Hparsed); simpl;
      rewrite Hdump; reflexivity.
Qed.

Lemma pullDeployedSecrets_failures_leave_file_untouched_witness :
  aws_request Scenario.env_no_listing
    (GetParametersByPath "/svc-dev/secrets/" true (Some true))
  = Throw (ProviderError "AccessDeniedException")
  /\ pullDeployedSecrets Scenario.env_no_listing
     = ([EvRequest (GetParametersByPath "/svc-dev/secrets/" true (Some true))],
        Throw (ProviderError "AccessDeniedException")).
Proof.
  split; [reflexivity|].
  exact (proj1 (pullDeployedSecrets_failures_leave_file_untouched
                  Scenario.env_no_listing
                  (mkOptions (Some "secrets.yml") None) "secrets.yml"
                  (ProviderError "AccessDeniedException")
                  eq_refl eq_refl ltac:(discriminate))
               eq_refl).
Defined.

(** ** The earlier revision *)

Section PreviousRevision.



End PreviousRevision.



(** ** Deploy and pull together *)

(** X24. Pull gives back the names deploy used.  When the store lists, under
    the paths [prefix + name] of pairwise different names, values that are
    JSON, the file pull writes is the encoding of the object with exactly
    those names, each with its parsed value, in the property order of
    JavaScript: names that are array indices first, in ascending numeric
    order, then the other names in the order of the listing; so without such
    a name the object has the names in the order of the listing. *)
Theorem pullDeployedSecrets_recovers_deployed_names
  (env : Env) (o : Options) (filePath : string)
  (listed : list SsmParameter) (document : list (string * value))
  (content : string) :
  options env = Some o -> file o = Some filePath -> filePath <> "" ->
  aws_request env (GetParametersByPath (resolveSsmPath env) true (Some true))
    = Ok (GetParametersByPathResult listed) ->
  Forall2 (fun secret entry =>
             Name secret = (resolveSsmPath env ++ fst entry)%string
             /\ JSON_parse env (Value secret) = Ok (snd entry))
          listed document ->
  NoDup (keys document) ->
  yaml_dump env (VObject (own_property_order document)) = Ok content ->
  observable (pullDeployedSecrets env)
  = ([EvRequest (GetParametersByPath (resolveSsmPath env) true (Some true));
      EvWriteFileSync filePath content],
     writeFileSync env filePath content)
  /\ ((forall entry, In entry document -> array_index (fst entry) = None) ->
      own_property_order document = document).
Proof.
  intros Ho Hf Hne Hlist Hlisted Hnames Hdump.
  split; [|apply own_property_order_without_index].
  assert (array_map (pullEntry env (resolveSsmPath env)) listed
          = ([], Ok document)) as Hmap.
  { apply array_map_pullEntry_parsed.
    clear Hlist Hnames Hdump.
    induction Hlisted as [|secret [name v] listed document [Hname Hparse] _ IH];
      constructor; [|exact IH].
    split; [exact Hparse|]. unfold pulled_entry. simpl in *.
    now rewrite Hname, replace_first_with_empty_eq, prefix_append, drop_append. }
  unfold pullDeployedSecrets, observable.
  rewrite (configured_file_set env o filePath Ho Hf Hne).
  unfold pullSecrets. run_plugin. rewrite Hlist. simpl.
  destruct (DEBUG env); simpl; rewrite Hmap; simpl;
    rewrite (Object_fromEntries_distinct document Hnames), Hdump; simpl;
    destruct (writeFileSync env filePath content); reflexivity.
Qed.

Lemma pullDeployedSecrets_recovers_deployed_names_witness :
  NoDup (keys [("db", VString "pw1"); ("api", Fixture.api 30)])
  /\ observable (pullDeployedSecrets Fixture.env_json)
     = ([EvRequest (GetParametersByPath "/svc-dev/secrets/" true (Some true));
         EvWriteFileSync "secrets.yml" Fixture.document_text], Ok tt).
Proof.
  assert (NoDup (keys [("db", VString "pw1"); ("api", Fixture.api 30)])) as Hnd.
  { repeat constructor; simpl; intuition discriminate. }
  split; [exact Hnd|].
  refine (proj1 (pullDeployedSecrets_recovers_deployed_names
                   Fixture.env_json (mkOptions (Some "secrets.yml") None)
                   "secrets.yml"
                   [ mkSsmParameter "/svc-dev/secrets/db" (Fixture.quoted "pw1");
                     mkSsmParameter "/svc-dev/secrets/api" (Fixture.api_json "30") ]
                   [("db", VString "pw1"); ("api", Fixture.api 30)]
                   Fixture.document_text
                   eq_refl eq_refl ltac:(discriminate) eq_refl _ Hnd eq_refl)).
  repeat constructor.
Defined.


